(** * Bridge relayer (script.py): shallow embedding and its properties

    The relayer watches a source chain for [TokensLocked] events, builds and
    signs a [mintTokens] call for the destination chain, and keeps the number
    of the last scanned block in a JSON state file.

    Python integers are unbounded, so block numbers and amounts are [Z].
    The two chain nodes, the file system and the clock are outside the
    program: every call to them is recorded in a trace of [Action]s and its
    answer is taken from an oracle record ([SourceNode], [DestNode],
    [CycleEnv]).  Statements that can raise are written in a small
    state / trace / exception monad [M].

    The [while True] loop of [run] does not end by itself; [loop] runs its
    first passes, one per element of a list of oracles.  [KeyboardInterrupt]
    comes from outside at any moment and is not part of the model: every
    exception here derives from [Exception]. *)

From Stdlib Require Import ZArith List String Bool Lia Sorted.
Import ListNotations.
Set Warnings "-register-all".
Open Scope string_scope.
Open Scope list_scope.
Open Scope Z_scope.

(** ** Values *)

Definition Address := string.
Definition bytes := string.

(** What [json.load] can return (numbers restricted to integers, which is
    all [save_state] ever writes). *)
Inductive json : Type :=
| JNull
| JBool (b : bool)
| JInt (n : Z)
| JStr (s : string)
| JList (l : list json)
| JDict (d : list (string * json)).

(** Python truth value, as tested by [not self.last_scanned_block]. *)
Definition truthy (v : json) : bool :=
  match v with
  | JNull => false
  | JBool b => b
  | JInt n => negb (n =? 0)
  | JStr s => negb (String.eqb s "")
  | JList l => match l with [] => false | _ => true end
  | JDict d => match d with [] => false | _ => true end
  end.

(** Exceptions the program meets; all derive from [Exception]. *)
Inductive exn : Type :=
| BlockNotFound
| ConnectionError
| ValueError
| TypeError
| AttributeError
| JSONDecodeError
| OSError
| RPCError (msg : string).

Inductive result (A : Type) : Type :=
| Ok (a : A)
| Raise (e : exn).
Arguments Ok {A} a.
Arguments Raise {A} e.

(** The ABI's [TokensLocked] event, decoded. *)
Record EventArgs : Type := mkArgs {
  token : Address;
  sender : Address;
  recipient : Address;
  amount : Z;
  destinationChainId : Z
}.

Record Event : Type := mkEvent {
  args : EventArgs;
  transactionHash : bytes;
  blockNumber : Z;
  logIndex : Z
}.

(** A call of a function of the destination contract with its arguments:
    [self.contract.functions.mintTokens(token, recipient, amount, hash)]. *)
Record ContractCall : Type := mkCall {
  fn_name : string;
  arg_token : Address;
  arg_recipient : Address;
  arg_amount : Z;
  arg_sourceTransactionHash : bytes
}.

Record TxPayload : Type := mkPayload {
  tx_from : Address;
  tx_nonce : Z;
  tx_gas : Z;
  tx_gasPrice : Z
}.

(** ** Configuration *)

(** ["latest"], or a value [int] accepts. *)
Inductive InitialScanBlock : Type :=
| Latest
| FromBlock (n : Z).

Record Config : Type := mkConfig {
  source_name : string;
  source_rpc_url : string;
  source_bridge_contract_address : Address;
  event_to_listen : string;
  destination_name : string;
  destination_rpc_url : string;
  destination_bridge_contract_address : Address;
  private_key : string;
  polling_interval_seconds : Z;
  max_blocks_per_scan : Z;
  initial_scan_block : InitialScanBlock;
  state_file : string
}.

(** ** Trace of effects *)

Inductive Level : Type := DEBUG | INFO | WARNING | ERROR | CRITICAL.

Inductive LogMsg : Type :=
| MsgConnecting (chain url : string)
| MsgConnected (chain : string) (chain_id : Z)
| MsgConnectionFailed (chain : string) (e : exn)
| MsgNotConnected
| MsgScanning (event_name : string) (from_block to_block : Z)
| MsgFound (n : nat) (event_name : string)
| MsgRangeNotFound (from_block to_block : Z)
| MsgScanError (e : exn)
| MsgProcessorInitialized (relayer : Address)
| MsgProcessing (tx_hash : string)
| MsgPreparing (ether : string) (tok rcpt : Address)
| MsgSigned
| MsgSimulationBanner
| MsgSubmitting (chain : string)
| MsgSimulatedSent (simulated_tx_hash : string)
| MsgProcessFailed (e : exn)
| MsgLoadingState (path : string)
| MsgSavedState (path : string) (v : json)
| MsgStartingUp
| MsgNoPreviousState (v : json)
| MsgNoNewBlocks (latest_block : Z)
| MsgCriticalLoop (e : exn)
| MsgShutDown
| MsgConnectionIssue (e : exn)
| MsgCannotStart (e : exn).

(** Calls that leave the program, in the order they happen.
    [CallProcessEvent] marks the entry into [process_event];
    [SendRawTransaction] stands for [send_raw_transaction], which the source
    keeps commented out. *)
Inductive Action : Type :=
| Log (lvl : Level) (m : LogMsg)
| Sleep (seconds : Z)
| BlockNumber
| CreateFilter (from_block to_block : Z) (event_name : string)
| CallProcessEvent (e : Event)
| GetTransactionCount (a : Address)
| GasPrice
| BuildTransaction (c : ContractCall) (p : TxPayload)
| SignTransaction (tx : bytes) (key : string)
| SendRawTransaction (raw : bytes)
| WriteFile (path : string) (content : json).

(** ** The world the service mutates *)

Inductive StoreFile : Type :=
| NoFile
| Unreadable
| Unparseable
| Holds (j : json).

(** The fields of the service object that change, and the state file. *)
Record World : Type := mkWorld {
  state : list (string * json);
  last_scanned_block : json;
  relayer_address : Address;
  store : StoreFile
}.

(** ** State, trace and exception monad *)

Definition M (A : Type) : Type := World -> World * list Action * result A.

Definition ret {A} (a : A) : M A := fun w => (w, [], Ok a).

Definition raise {A} (e : exn) : M A := fun w => (w, [], Raise e).

Definition bind {A B} (m : M A) (k : A -> M B) : M B :=
  fun w =>
    match m w with
    | (w1, t1, Ok a) =>
        match k a w1 with
        | (w2, t2, r) => (w2, t1 ++ t2, r)
        end
    | (w1, t1, Raise e) => (w1, t1, Raise e)
    end.

(** [try: m except Exception as e: h e] *)
Definition try_except {A} (m : M A) (h : exn -> M A) : M A :=
  fun w =>
    match m w with
    | (w1, t1, Ok a) => (w1, t1, Ok a)
    | (w1, t1, Raise e) =>
        match h e w1 with
        | (w2, t2, r) => (w2, t1 ++ t2, r)
        end
    end.

Definition emit (a : Action) : M unit := fun w => (w, [a], Ok tt).

Definition log (lvl : Level) (m : LogMsg) : M unit := emit (Log lvl m).

(** An external call: recorded, then answered by the oracle. *)
Definition call {A} (a : Action) (answer : result A) : M A :=
  fun w => (w, [a], answer).

(** A helper that may raise and leaves no trace. *)
Definition pure {A} (r : result A) : M A := fun w => (w, [], r).

Definition get : M World := fun w => (w, [], Ok w).

Declare Scope monad_scope.
Delimit Scope monad_scope with monad.
Notation "x <- m ;; k" := (bind m (fun x => k))
  (at level 61, m at next level, right associativity) : monad_scope.
Notation "m ;; k" := (bind m (fun _ => k))
  (at level 61, right associativity) : monad_scope.
Open Scope monad_scope.

(** [time.sleep] refuses a negative length. *)
Definition sleep (seconds : Z) : M unit :=
  if seconds <? 0 then raise ValueError else emit (Sleep seconds).

(** ** BlockchainConnector *)

(** Answers of the source node during one use. *)
Record SourceNode : Type := mkSource {
  is_connected : bool;
  provider_connected : bool;
  chain_id : result Z;
  block_number : result Z;
  get_all_entries : Z -> Z -> string -> result (list Event)
}.

Definition connect (chain_name rpc_url : string)
    (provider_ok : bool) (cid : result Z) : M unit :=
  log INFO (MsgConnecting chain_name rpc_url) ;;
  try_except
    ((if negb provider_ok then raise ConnectionError else ret tt) ;;
     i <- pure cid ;;
     log INFO (MsgConnected chain_name i))
    (fun e =>
       log ERROR (MsgConnectionFailed chain_name e) ;;
       raise ConnectionError).

Definition get_latest_block_number (cfg : Config) (n : SourceNode) : M Z :=
  (if negb (is_connected n)
   then log WARNING MsgNotConnected ;;
        connect (source_name cfg) (source_rpc_url cfg)
                (provider_connected n) (chain_id n)
   else ret tt) ;;
  call BlockNumber (block_number n).

(** ** EventScanner *)

(** [dict(event)]: the same keys and values, as a plain dictionary. *)
Definition dict (event : Event) : Event := event.

Definition scan_for_events (n : SourceNode)
    (from_block to_block : Z) (event_name : string) : M (list Event) :=
  log INFO (MsgScanning event_name from_block to_block) ;;
  try_except
    (events <- call (CreateFilter from_block to_block event_name)
                    (get_all_entries n from_block to_block event_name) ;;
     (match events with
      | [] => ret tt
      | _ :: _ => log INFO (MsgFound (List.length events) event_name)
      end) ;;
     ret (map dict events))
    (fun e =>
       match e with
       | BlockNotFound =>
           log WARNING (MsgRangeNotFound from_block to_block) ;; ret []
       | _ => log ERROR (MsgScanError e) ;; ret []
       end).

(** ** TransactionProcessor *)

(** Answers of the destination node and of the web3 helpers while one event
    is processed. *)
Record DestNode : Type := mkDest {
  hex : bytes -> string;
  from_wei : Z -> result string;
  get_transaction_count : Address -> result Z;
  gas_price : result Z;
  build_transaction : ContractCall -> TxPayload -> result bytes;
  sign_transaction : bytes -> string -> result bytes;
  keccak : bytes -> bytes
}.

(** The destination call built from one event. *)
Definition mintTokens (tok rcpt : Address) (amt : Z) (h : bytes)
  : ContractCall :=
  {| fn_name := "mintTokens";
     arg_token := tok;
     arg_recipient := rcpt;
     arg_amount := amt;
     arg_sourceTransactionHash := h |}.

Definition process_event (cfg : Config) (d : DestNode) (event_data : Event)
  : M bool :=
  emit (CallProcessEvent event_data) ;;
  try_except
    (w <- get ;;
     let relayer_address := relayer_address w in
     let tx_hash := hex d (transactionHash event_data) in
     log INFO (MsgProcessing tx_hash) ;;
     let event_args := args event_data in
     let tok := token event_args in
     let rcpt := recipient event_args in
     let amt := amount event_args in
     ether <- pure (from_wei d amt) ;;
     log INFO (MsgPreparing ether tok rcpt) ;;
     nonce <- call (GetTransactionCount relayer_address)
                   (get_transaction_count d relayer_address) ;;
     gp <- call GasPrice (gas_price d) ;;
     let tx_payload :=
       {| tx_from := relayer_address;
          tx_nonce := nonce;
          tx_gas := 2000000;
          tx_gasPrice := gp |} in
     let c := mintTokens tok rcpt amt (transactionHash event_data) in
     mint_tx <- call (BuildTransaction c tx_payload)
                     (build_transaction d c tx_payload) ;;
     signed_tx <- call (SignTransaction mint_tx (private_key cfg))
                       (sign_transaction d mint_tx (private_key cfg)) ;;
     log INFO MsgSigned ;;
     log WARNING MsgSimulationBanner ;;
     log WARNING (MsgSubmitting (destination_name cfg)) ;;
     sleep 1 ;;
     let simulated_tx_hash := hex d (keccak d signed_tx) in
     log INFO (MsgSimulatedSent simulated_tx_hash) ;;
     ret true)
    (fun e => log ERROR (MsgProcessFailed e) ;; ret false).

(** ** BridgeRelayerService *)

Fixpoint dict_get (d : list (string * json)) (k : string) : json :=
  match d with
  | [] => JNull
  | (k', v) :: rest => if String.eqb k' k then v else dict_get rest k
  end.

Fixpoint dict_set (d : list (string * json)) (k : string) (v : json)
  : list (string * json) :=
  match d with
  | [] => [(k, v)]
  | (k', v') :: rest =>
      if String.eqb k' k then (k, v) :: rest else (k', v') :: dict_set rest k v
  end.

Definition set_state (d : list (string * json)) : M unit :=
  fun w => ({| state := d;
               last_scanned_block := last_scanned_block w;
               relayer_address := relayer_address w;
               store := store w |}, [], Ok tt).

Definition set_last_scanned_block (v : json) : M unit :=
  fun w => ({| state := state w;
               last_scanned_block := v;
               relayer_address := relayer_address w;
               store := store w |}, [], Ok tt).

Definition set_relayer_address (a : Address) : M unit :=
  fun w => ({| state := state w;
               last_scanned_block := last_scanned_block w;
               relayer_address := a;
               store := store w |}, [], Ok tt).

Definition set_store (f : StoreFile) : M unit :=
  fun w => ({| state := state w;
               last_scanned_block := last_scanned_block w;
               relayer_address := relayer_address w;
               store := f |}, [], Ok tt).

Definition load_state (cfg : Config) : M json :=
  w <- get ;;
  match store w with
  | NoFile => ret (JDict [])
  | Unreadable => raise OSError
  | Unparseable =>
      log INFO (MsgLoadingState (state_file cfg)) ;; raise JSONDecodeError
  | Holds j =>
      log INFO (MsgLoadingState (state_file cfg)) ;; ret j
  end.

Definition save_state (cfg : Config) (open_for_write : result unit) : M unit :=
  w <- get ;;
  let st := dict_set (state w) "last_scanned_block" (last_scanned_block w) in
  set_state st ;;
  call (WriteFile (state_file cfg) (JDict st)) open_for_write ;;
  set_store (Holds (JDict st)) ;;
  log DEBUG (MsgSavedState (state_file cfg) (last_scanned_block w)).

(** Answers met while the service object is built. *)
Record InitEnv : Type := mkInit {
  init_source : SourceNode;
  source_checksum : result Address;
  dest_provider_connected : bool;
  dest_chain_id : result Z;
  dest_checksum : result Address;
  from_key : string -> result Address
}.

Definition init (cfg : Config) (ie : InitEnv) : M unit :=
  st <- load_state cfg ;;
  (match st with
   | JDict d =>
       set_state d ;;
       set_last_scanned_block (dict_get d "last_scanned_block")
   | _ => raise AttributeError
   end) ;;
  connect (source_name cfg) (source_rpc_url cfg)
          (provider_connected (init_source ie)) (chain_id (init_source ie)) ;;
  pure (source_checksum ie) ;;
  connect (destination_name cfg) (destination_rpc_url cfg)
          (dest_provider_connected ie) (dest_chain_id ie) ;;
  pure (dest_checksum ie) ;;
  a <- pure (from_key ie (private_key cfg)) ;;
  set_relayer_address a ;;
  log INFO (MsgProcessorInitialized a).

(** [self.last_scanned_block + 1] *)
Definition py_add (v : json) (k : Z) : result Z :=
  match v with
  | JInt n => Ok (n + k)
  | JBool b => Ok ((if b then 1 else 0) + k)
  | _ => Raise TypeError
  end.

(** Answers met during one pass of the [while True] loop; [dest i] answers
    while the [i]-th event of the batch is processed. *)
Record CycleEnv : Type := mkCycle {
  source : SourceNode;
  dest : nat -> DestNode;
  open_for_write : result unit
}.

Fixpoint for_each_event (cfg : Config) (dst : nat -> DestNode) (i : nat)
    (events : list Event) : M unit :=
  match events with
  | [] => ret tt
  | event :: rest =>
      process_event cfg (dst i) event ;;
      for_each_event cfg dst (S i) rest
  end.

(** One pass of the body of [while True]. *)
Definition cycle (cfg : Config) (env : CycleEnv) : M unit :=
  latest_block <- get_latest_block_number cfg (source env) ;;
  w <- get ;;
  from_block <- pure (py_add (last_scanned_block w) 1) ;;
  let to_block :=
    Z.min latest_block (from_block + max_blocks_per_scan cfg - 1) in
  if from_block >? to_block then
    log INFO (MsgNoNewBlocks latest_block) ;;
    sleep (polling_interval_seconds cfg)
  else
    events <- scan_for_events (source env) from_block to_block
                              (event_to_listen cfg) ;;
    (match events with
     | [] => ret tt
     | _ :: _ => for_each_event cfg (dest env) 0 events
     end) ;;
    set_last_scanned_block (JInt to_block) ;;
    save_state cfg (open_for_write env) ;;
    sleep (polling_interval_seconds cfg).

(** The first passes of the loop, one per element of [envs]. *)
Fixpoint loop (cfg : Config) (envs : list CycleEnv) : M unit :=
  match envs with
  | [] => ret tt
  | env :: rest => cycle cfg env ;; loop cfg rest
  end.

(** The part of [run] before the loop. *)
Definition startup (cfg : Config) (n : SourceNode) : M unit :=
  log INFO MsgStartingUp ;;
  w <- get ;;
  if negb (truthy (last_scanned_block w)) then
    (match initial_scan_block cfg with
     | Latest =>
         b <- get_latest_block_number cfg n ;;
         set_last_scanned_block (JInt b)
     | FromBlock k => set_last_scanned_block (JInt k)
     end) ;;
    w' <- get ;;
    log INFO (MsgNoPreviousState (last_scanned_block w'))
  else ret tt.

(** [run], observed for the first [length envs] passes of its loop; an
    exception leaving the loop is logged and ends the service. *)
Definition run (cfg : Config) (n : SourceNode) (envs : list CycleEnv)
  : M unit :=
  startup cfg n ;;
  try_except (loop cfg envs)
    (fun e => log CRITICAL (MsgCriticalLoop e) ;; log INFO MsgShutDown).

(** The entry point; the result is the exit status when the process ends
    within the observed passes. *)
Definition main (cfg : Config) (ie : InitEnv) (n : SourceNode)
    (envs : list CycleEnv) : M Z :=
  try_except
    (init cfg ie ;; run cfg n envs ;; ret 0)
    (fun e =>
       match e with
       | ConnectionError => log CRITICAL (MsgConnectionIssue e) ;; ret 1
       | _ => log CRITICAL (MsgCannotStart e) ;; ret 1
       end).

(** * Observations on a trace *)

Definition scan_of (a : Action) : list (Z * Z) :=
  match a with CreateFilter f t _ => [(f, t)] | _ => [] end.

Definition handed_of (a : Action) : list Event :=
  match a with CallProcessEvent e => [e] | _ => [] end.

Definition write_of (a : Action) : list json :=
  match a with WriteFile _ j => [j] | _ => [] end.

Definition built_of (a : Action) : list ContractCall :=
  match a with BuildTransaction c _ => [c] | _ => [] end.

Definition signed_of (a : Action) : list bytes :=
  match a with SignTransaction tx _ => [tx] | _ => [] end.

Definition sent_of (a : Action) : list bytes :=
  match a with SendRawTransaction raw => [raw] | _ => [] end.

Definition sleep_of (a : Action) : list Z :=
  match a with Sleep s => [s] | _ => [] end.

(** The block ranges requested from the source node, in order. *)
Definition scans (tr : list Action) : list (Z * Z) := flat_map scan_of tr.

(** The events handed to [process_event], in order. *)
Definition handed (tr : list Action) : list Event := flat_map handed_of tr.

(** The contents written to the state file, in order. *)
Definition writes (tr : list Action) : list json := flat_map write_of tr.

(** The destination calls given to [build_transaction]. *)
Definition built (tr : list Action) : list ContractCall :=
  flat_map built_of tr.

Definition signed (tr : list Action) : list bytes := flat_map signed_of tr.

(** The raw transactions sent to the destination network. *)
Definition sent (tr : list Action) : list bytes := flat_map sent_of tr.

Definition sleeps (tr : list Action) : list Z := flat_map sleep_of tr.

(** A trace that touches neither the source logs, the pipeline, the state
    file nor the destination network. *)
Definition quiet (tr : list Action) : Prop :=
  scans tr = [] /\ handed tr = [] /\ writes tr = [] /\ sent tr = [].

(** [tiles b rs c]: the ranges [rs] follow one another without gap or
    overlap, the first starts at [b + 1] and the last ends at [c]. *)
Fixpoint tiles (b : Z) (rs : list (Z * Z)) (c : Z) : Prop :=
  match rs with
  | [] => c = b
  | (f, t) :: rest => f = b + 1 /\ f <= t /\ tiles t rest c
  end.

(** The cursor stored in the state file, when there is one. *)
Definition persisted (w : World) : option json :=
  match store w with
  | Holds (JDict d) => Some (dict_get d "last_scanned_block")
  | _ => None
  end.

(** Position in [(blockNumber, logIndex)] order. *)
Definition before (e1 e2 : Event) : Prop :=
  blockNumber e1 < blockNumber e2 \/
  (blockNumber e1 = blockNumber e2 /\ logIndex e1 < logIndex e2).

(** The range one pass asks for, from the cursor [b] and the head [h]. *)
Definition from_of (b : Z) : Z := b + 1.

Definition to_of (cfg : Config) (b h : Z) : Z :=
  Z.min h (from_of b + max_blocks_per_scan cfg - 1).

(** * Sample configuration and nodes *)

Definition CONFIG : Config :=
  {| source_name := "Ethereum";
     source_rpc_url := "https://rpc.ankr.com/eth";
     source_bridge_contract_address :=
       "0x0000000000000000000000000000000000000001";
     event_to_listen := "TokensLocked";
     destination_name := "Polygon";
     destination_rpc_url := "https://polygon-rpc.com";
     destination_bridge_contract_address :=
       "0x0000000000000000000000000000000000000002";
     private_key := "0xaaaa";
     polling_interval_seconds := 30;
     max_blocks_per_scan := 100;
     initial_scan_block := Latest;
     state_file := "relayer_state.json" |}.

Definition node_at (h : Z) (answer : Z -> Z -> string -> result (list Event))
  : SourceNode :=
  {| is_connected := true;
     provider_connected := true;
     chain_id := Ok 1;
     block_number := Ok h;
     get_all_entries := answer |}.

Definition dest_ok : DestNode :=
  {| hex := fun b => String.append "0x" b;
     from_wei := fun _ => Ok "1";
     get_transaction_count := fun _ => Ok 7;
     gas_price := Ok 5;
     build_transaction := fun c _ => Ok (arg_sourceTransactionHash c);
     sign_transaction := fun tx key => Ok (String.append key tx);
     keccak := fun raw => String.append "k" raw |}.

(** A destination node whose nonce lookup fails. *)
Definition dest_down : DestNode :=
  {| hex := hex dest_ok;
     from_wei := from_wei dest_ok;
     get_transaction_count := fun _ => Raise (RPCError "timeout");
     gas_price := gas_price dest_ok;
     build_transaction := build_transaction dest_ok;
     sign_transaction := sign_transaction dest_ok;
     keccak := keccak dest_ok |}.

Definition locked (h : bytes) (blk idx : Z) : Event :=
  {| args := {| token := "T"; sender := "S"; recipient := "R";
                amount := 10; destinationChainId := 137 |};
     transactionHash := h;
     blockNumber := blk;
     logIndex := idx |}.

Definition world_at (v : json) : World :=
  {| state := [];
     last_scanned_block := v;
     relayer_address := "0xrelayer";
     store := NoFile |}.

Definition pass (h : Z) (answer : Z -> Z -> string -> result (list Event))
    (dst : nat -> DestNode) : CycleEnv :=
  {| source := node_at h answer; dest := dst; open_for_write := Ok tt |}.

(** * Reference behaviours used in the statements *)

Definition trace_of {A} (m : M A) (w : World) : list Action := snd (fst (m w)).

Definition outcome_of {A} (m : M A) (w : World) : result A := snd (m w).

(** The trace left by a batch: one run of [process_event] per event. *)
Fixpoint batch_trace (cfg : Config) (dst : nat -> DestNode) (i : nat)
    (events : list Event) (w : World) : list Action :=
  match events with
  | [] => []
  | event :: rest =>
      trace_of (process_event cfg (dst i) event) w
      ++ batch_trace cfg dst (S i) rest w
  end.

(** What [scan_for_events] hands back for an answer of the node. *)
Definition scanned (answer : result (list Event)) : list Event :=
  match answer with Ok l => l | Raise _ => [] end.

(** The source node reports every event of [chain] that lies in a range it
    answers for. *)
Definition honest (cfg : Config) (chain : list Event) (env : CycleEnv)
  : Prop :=
  forall f t l,
    get_all_entries (source env) f t (event_to_listen cfg) = Ok l ->
    forall e, In e chain -> f <= blockNumber e <= t -> In e l.


(** The node refuses the range of this pass. *)
Definition range_rejected (cfg : Config) (env : CycleEnv) (b h : Z) : Prop :=
  exists ex,
    get_all_entries (source env) (from_of b) (to_of cfg b h)
                    (event_to_listen cfg) = Raise ex.

(** A refused range leaves the cursor where it was, as the specification
    words it. *)
Definition cursor_held_as_claimed (cfg : Config) (env : CycleEnv) (w : World)
  : Prop :=
  forall b t0 h w' tr r,
    last_scanned_block w = JInt b ->
    get_latest_block_number cfg (source env) w = (w, t0, Ok h) ->
    from_of b <= to_of cfg b h ->
    range_rejected cfg env b h ->
    cycle cfg env w = (w', tr, r) ->
    last_scanned_block w' = JInt b.

(** With backlog left the pass does not sleep the polling interval, as the
    specification words it. *)
Definition no_sleep_with_backlog_as_claimed (cfg : Config) (env : CycleEnv)
    (w : World) : Prop :=
  forall b t0 h w' tr,
    last_scanned_block w = JInt b ->
    get_latest_block_number cfg (source env) w = (w, t0, Ok h) ->
    from_of b <= to_of cfg b h ->
    to_of cfg b h < h ->
    cycle cfg env w = (w', tr, Ok tt) ->
    ~ In (polling_interval_seconds cfg) (sleeps tr).

(** The value handed back by the pipeline carries the content hash of the
    signed payload, as the specification words it: the hash can be read off
    the returned value. *)
Definition returns_receipt_hash_as_claimed (cfg : Config) (w : World)
  : Prop :=
  exists receipt : bool -> string,
    forall d e b c p tx raw,
      outcome_of (process_event cfg d e) w = Ok b ->
      In (BuildTransaction c p) (trace_of (process_event cfg d e) w) ->
      build_transaction d c p = Ok tx ->
      sign_transaction d tx (private_key cfg) = Ok raw ->
      receipt b = hex d (keccak d raw).

(** [load] never raises, as the specification words it. *)
Definition load_never_throws_as_claimed (cfg : Config) (w : World) : Prop :=
  exists w' tr v, load_state cfg w = (w', tr, Ok v).

Definition with_store (f : StoreFile) (w : World) : World :=
  {| state := state w;
     last_scanned_block := last_scanned_block w;
     relayer_address := relayer_address w;
     store := f |}.

(** The world after a pass that scanned up to [t]. *)
Definition advanced (cfg : Config) (w : World) (t : Z) : World :=
  {| state := dict_set (state w) "last_scanned_block" (JInt t);
     last_scanned_block := JInt t;
     relayer_address := relayer_address w;
     store := store w |}.

Definition saved (cfg : Config) (w : World) (t : Z) : World :=
  with_store
    (Holds (JDict (dict_set (state w) "last_scanned_block" (JInt t))))
    (advanced cfg w t).

Definition init_ok : InitEnv :=
  {| init_source := node_at 1000 (fun _ _ _ => Ok []);
     source_checksum := Ok (source_bridge_contract_address CONFIG);
     dest_provider_connected := true;
     dest_chain_id := Ok 137;
     dest_checksum := Ok (destination_bridge_contract_address CONFIG);
     from_key := fun _ => Ok "0xrelayer" |}.


(** The events of the chain that lie in a range, as an answering node
    reports them. *)
Definition in_range (f t : Z) (e : Event) : bool :=
  (f <=? blockNumber e) && (blockNumber e <=? t).

Definition sample_chain : list Event :=
  [locked "h1" 550 0; locked "h2" 550 1; locked "h3" 620 0].

Definition answering (chain : list Event) (f t : Z) (_ : string)
  : result (list Event) :=
  Ok (filter (in_range f t) chain).

Definition sample_passes : list CycleEnv :=
  [pass 650 (answering sample_chain) (fun _ => dest_ok);
   pass 650 (answering sample_chain)
        (fun i => match i with O => dest_down | _ => dest_ok end);
   pass 650 (answering sample_chain) (fun _ => dest_ok)].

(** The node refused the range that holds the event. *)
Definition refused_in (cfg : Config) (envs : list CycleEnv)
    (tr : list Action) (e : Event) : Prop :=
  exists env f t ex,
    In env envs /\ In (f, t) (scans tr) /\ f <= blockNumber e <= t /\
    get_all_entries (source env) f t (event_to_listen cfg) = Raise ex.
Definition with_cursor (v : json) (w : World) : World :=
  {| state := state w;
     last_scanned_block := v;
     relayer_address := relayer_address w;
     store := store w |}.

(** The payload [process_event] passes to [build_transaction]. *)
Definition payload_of (w : World) (nonce gp : Z) : TxPayload :=
  {| tx_from := relayer_address w;
     tx_nonce := nonce;
     tx_gas := 2000000;
     tx_gasPrice := gp |}.

(** A state file that holds a cursor of block 0. *)
Definition stored_zero : World :=
  with_store (Holds (JDict [("last_scanned_block", JInt 0)]))
             (world_at JNull).

(** A source node that lost its connection and does not come back. *)
Definition unreachable_node : SourceNode :=
  {| is_connected := false;
     provider_connected := false;
     chain_id := Ok 1;
     block_number := Ok 1000;
     get_all_entries := fun _ _ _ => Ok [] |}.

(** A service whose state carries a key besides the cursor. *)
Definition annotated_world : World :=
  {| state := [("note", JStr "keep"); ("last_scanned_block", JInt 600)];
     last_scanned_block := JInt 700;
     relayer_address := "0xrelayer";
     store := Holds (JDict [("note", JStr "keep");
                            ("last_scanned_block", JInt 600)]) |}.

(** A pass whose head lookup fails. *)
Definition failing_pass : CycleEnv :=
  {| source := {| is_connected := true;
                  provider_connected := true;
                  chain_id := Ok 1;
                  block_number := Raise (RPCError "bad gateway");
                  get_all_entries := fun _ _ _ => Ok [] |};
     dest := fun _ => dest_ok;
     open_for_write := Ok tt |}.

(** The source node cannot be reached while the service is built. *)
Definition offline_init : InitEnv :=
  {| init_source := unreachable_node;
     source_checksum := source_checksum init_ok;
     dest_provider_connected := true;
     dest_chain_id := Ok 137;
     dest_checksum := dest_checksum init_ok;
     from_key := from_key init_ok |}.

(** The configuration with a chunk size of zero. *)
Definition no_chunk_config : Config :=
  {| source_name := source_name CONFIG;
     source_rpc_url := source_rpc_url CONFIG;
     source_bridge_contract_address := source_bridge_contract_address CONFIG;
     event_to_listen := event_to_listen CONFIG;
     destination_name := destination_name CONFIG;
     destination_rpc_url := destination_rpc_url CONFIG;
     destination_bridge_contract_address :=
       destination_bridge_contract_address CONFIG;
     private_key := private_key CONFIG;
     polling_interval_seconds := 30;
     max_blocks_per_scan := 0;
     initial_scan_block := Latest;
     state_file := state_file CONFIG |}.

(** * WordSource (word_source.py)

    Python strings are sequences of Unicode characters.  The character
    type and the three facts of the Unicode database that the code uses
    ([str.isspace] and [str.isalpha] on one character, [str.lower] on a
    string) are parameters; a file is the list of its lines; the draw of
    [random.choice] is the number [r], taken below the length of the
    list. *)
Module WordSource.

Inductive error : Type :=
| FileNotFoundError
| OSError
| ValueError.

Inductive outcome (A : Type) : Type :=
| Return (a : A)
| Raised (e : error).
Arguments Return {A} a.
Arguments Raised {A} e.

(** What is found at [word_file_path]. *)
Inductive WordFile (char : Type) : Type :=
| NotAFile
| Unreadable
| Lines (lines : list (list char)).
Arguments NotAFile {char}.
Arguments Unreadable {char}.
Arguments Lines {char} lines.

Record WordSource (char : Type) : Type := mkWordSource {
  word_file_path : string;
  words : list (list char)
}.
Arguments mkWordSource {char}.
Arguments word_file_path {char}.
Arguments words {char}.

Section Text.

Variable char : Type.
Variable isspace : char -> bool.
Variable isalpha_char : char -> bool.
Variable lower : list char -> list char.

Fixpoint lstrip (s : list char) : list char :=
  match s with
  | [] => []
  | c :: rest => if isspace c then lstrip rest else s
  end.

Definition rstrip (s : list char) : list char := rev (lstrip (rev s)).

(** [str.strip()] *)
Definition strip (s : list char) : list char := rstrip (lstrip s).

(** [str.isalpha()]: at least one character, and all of them letters. *)
Definition isalpha (s : list char) : bool :=
  match s with
  | [] => false
  | _ :: _ => forallb isalpha_char s
  end.

Definition len (s : list char) : Z := Z.of_nat (List.length s).

Definition load_words (lines : list (list char))
  : outcome (list (list char)) :=
  let words :=
    map (fun line => lower (strip line))
        (filter (fun line => isalpha (strip line)) lines) in
  match words with
  | [] => Raised ValueError
  | _ :: _ => Return words
  end.

(** [WordSource(word_file_path)] *)
Definition init (word_file_path : string) (file : WordFile char)
  : outcome (WordSource char) :=
  match file with
  | NotAFile => Raised FileNotFoundError
  | Unreadable => Raised OSError
  | Lines lines =>
      match load_words lines with
      | Return ws => Return (mkWordSource word_file_path ws)
      | Raised e => Raised e
      end
  end.

Definition get_random_word (self : WordSource char)
    (min_length : Z) (max_length : option Z) (r : nat)
  : outcome (list char) :=
  let filtered_words := words self in
  let filtered_words :=
    if min_length >? 0
    then filter (fun w => len w >=? min_length) filtered_words
    else filtered_words in
  let filtered_words :=
    match max_length with
    | Some m => filter (fun w => len w <=? m) filtered_words
    | None => filtered_words
    end in
  match filtered_words with
  | [] => Raised ValueError
  | w0 :: _ =>
      Return (nth (r mod List.length filtered_words)%nat filtered_words w0)
  end.

(** [len(source)] *)
Definition length (self : WordSource char) : nat := List.length (words self).

(** A word whose length lies in the window asked for. *)
Definition fits (min_length : Z) (max_length : option Z) (w : list char)
  : Prop :=
  min_length <= len w /\ forall m, max_length = Some m -> len w <= m.

End Text.

Arguments lstrip {char} isspace s.
Arguments rstrip {char} isspace s.
Arguments strip {char} isspace s.
Arguments isalpha {char} isalpha_char s.
Arguments len {char} s.
Arguments load_words {char} isspace isalpha_char lower lines.
Arguments init {char} isspace isalpha_char lower word_file_path file.
Arguments get_random_word {char} self min_length max_length r.
Arguments length {char} self.
Arguments fits {char} min_length max_length w.

(** ASCII instances of the character facts. *)
Definition ascii_isspace (c : Ascii.ascii) : bool :=
  let n := Ascii.nat_of_ascii c in
  ((9 <=? n) && (n <=? 13) || (n =? 32))%nat.

Definition ascii_isalpha (c : Ascii.ascii) : bool :=
  let n := Ascii.nat_of_ascii c in
  ((65 <=? n) && (n <=? 90) || (97 <=? n) && (n <=? 122))%nat.

Definition ascii_lower_char (c : Ascii.ascii) : Ascii.ascii :=
  let n := Ascii.nat_of_ascii c in
  if ((65 <=? n) && (n <=? 90))%nat then Ascii.ascii_of_nat (n + 32) else c.

Definition ascii_lower (s : list Ascii.ascii) : list Ascii.ascii :=
  map ascii_lower_char s.

Definition sample_lines : list (list Ascii.ascii) :=
  map list_ascii_of_string
      ["Apple" ++ String (Ascii.ascii_of_nat 10) EmptyString;
       "  pear  ";
       "x-ray";
       "";
       "Fig"]%string.

Definition sample_source : WordSource Ascii.ascii :=
  mkWordSource "words.txt"
    (map list_ascii_of_string ["apple"; "pear"; "fig"]%string).

End WordSource.

(** An answer of the node that is not in block order. *)
Definition unsorted_answer : list Event :=
  [locked "h3" 590 0; locked "h1" 550 0].

(** The events of a scan reach the pipeline in strictly ascending
    [(blockNumber, logIndex)] order, as the specification words it. *)
Definition ascending_delivery_as_claimed (cfg : Config) (env : CycleEnv)
    (w : World) : Prop :=
  forall b t0 h events,
    last_scanned_block w = JInt b ->
    get_latest_block_number cfg (source env) w = (w, t0, Ok h) ->
    from_of b <= to_of cfg b h ->
    get_all_entries (source env) (from_of b) (to_of cfg b h)
                    (event_to_listen cfg) = Ok events ->
    StronglySorted before (handed (trace_of (cycle cfg env) w)).

(** * Running the monad *)

Lemma bind_ok {A B} (m : M A) (k : A -> M B) w w1 t1 a :
  m w = (w1, t1, Ok a) ->
  bind m k w = (fst (fst (k a w1)), t1 ++ snd (fst (k a w1)), snd (k a w1)).
Proof.
  intros H. unfold bind. rewrite H.
  destruct (k a w1) as [[w2 t2] r]. reflexivity.
Qed.

Lemma bind_raise {A B} (m : M A) (k : A -> M B) w w1 t1 e :
  m w = (w1, t1, Raise e) -> bind m k w = (w1, t1, Raise e).
Proof. intros H. unfold bind. rewrite H. reflexivity. Qed.

Lemma scans_app t1 t2 : scans (t1 ++ t2) = scans t1 ++ scans t2.
Proof. apply flat_map_app. Qed.

Lemma handed_app t1 t2 : handed (t1 ++ t2) = handed t1 ++ handed t2.
Proof. apply flat_map_app. Qed.

Lemma writes_app t1 t2 : writes (t1 ++ t2) = writes t1 ++ writes t2.
Proof. apply flat_map_app. Qed.

Lemma sent_app t1 t2 : sent (t1 ++ t2) = sent t1 ++ sent t2.
Proof. apply flat_map_app. Qed.

Lemma quiet_app t1 t2 : quiet t1 -> quiet t2 -> quiet (t1 ++ t2).
Proof.
  unfold quiet. intros (a1 & b1 & c1 & d1) (a2 & b2 & c2 & d2).
  rewrite scans_app, handed_app, writes_app, sent_app.
  rewrite a1, a2, b1, b2, c1, c2, d1, d2. auto.
Qed.

Lemma dict_get_set d k v : dict_get (dict_set d k v) k = v.
Proof.
  induction d as [|[k' v'] rest IH]; simpl.
  - rewrite String.eqb_refl. reflexivity.
  - destruct (String.eqb k' k) eqn:E; simpl.
    + rewrite String.eqb_refl. reflexivity.
    + rewrite E. exact IH.
Qed.

Lemma map_dict l : map dict l = l.
Proof. unfold dict. apply map_id. Qed.

(** ** The components never let an exception escape *)

Lemma get_latest_block_number_run cfg n w :
  exists t0 r,
    get_latest_block_number cfg n w = (w, t0, r) /\ quiet t0.
Proof.
  unfold get_latest_block_number, connect, quiet.
  destruct n as [ic pc cid bn ans]; simpl.
  destruct ic, pc, cid, bn; simpl;
    (do 2 eexists; split; [reflexivity | auto]).
Qed.

Lemma scan_for_events_run n f t name w :
  exists ts,
    scan_for_events n f t name w
    = (w, ts, Ok (scanned (get_all_entries n f t name)))
    /\ scans ts = [(f, t)] /\ handed ts = [] /\ writes ts = []
    /\ sent ts = [].
Proof.
  unfold scan_for_events, bind, try_except, call, log, emit, ret; simpl.
  destruct (get_all_entries n f t name) as [[|e l]|ex]; simpl.
  - eexists; split; [reflexivity | auto].
  - rewrite map_dict. eexists; split; [reflexivity | auto].
  - destruct ex; simpl; (eexists; split; [reflexivity | auto]).
Qed.

Ltac run_process :=
  unfold process_event, bind, try_except, call, pure, log, emit, ret, get,
    sleep, raise; simpl.

Lemma process_event_run cfg d e w :
  exists tr b,
    process_event cfg d e w = (w, CallProcessEvent e :: tr, Ok b)
    /\ scans tr = [] /\ handed tr = [] /\ writes tr = [] /\ sent tr = []
    /\ (b = false -> exists ex, In (Log ERROR (MsgProcessFailed ex)) tr).
Proof.
  run_process.
  destruct (from_wei d (amount (args e))) as [ether|ex]; simpl.
  2: { do 2 eexists; split; [reflexivity|]. repeat split; auto.
       intros _; exists ex; simpl; auto. }
  destruct (get_transaction_count d (relayer_address w)) as [nonce|ex]; simpl.
  2: { do 2 eexists; split; [reflexivity|]. repeat split; auto.
       intros _; exists ex; simpl; auto 10. }
  destruct (gas_price d) as [gp|ex]; simpl.
  2: { do 2 eexists; split; [reflexivity|]. repeat split; auto.
       intros _; exists ex; simpl; auto 10. }
  destruct (build_transaction d _ _) as [tx|ex]; simpl.
  2: { do 2 eexists; split; [reflexivity|]. repeat split; auto.
       intros _; exists ex; simpl; auto 10. }
  destruct (sign_transaction d tx (private_key cfg)) as [raw|ex]; simpl.
  2: { do 2 eexists; split; [reflexivity|]. repeat split; auto.
       intros _; exists ex; simpl; auto 10. }
  do 2 eexists; split; [reflexivity|]. repeat split; auto.
  discriminate.
Qed.

Lemma process_event_eq cfg d e w :
  process_event cfg d e w
  = (w, trace_of (process_event cfg d e) w,
     outcome_of (process_event cfg d e) w).
Proof.
  destruct (process_event_run cfg d e w) as (tr & b & H & _).
  unfold trace_of, outcome_of. rewrite H. reflexivity.
Qed.

Lemma process_event_ok cfg d e w :
  exists b, outcome_of (process_event cfg d e) w = Ok b.
Proof.
  destruct (process_event_run cfg d e w) as (tr & b & H & _).
  exists b. unfold outcome_of. rewrite H. reflexivity.
Qed.

Lemma process_event_trace cfg d e w :
  let tr := trace_of (process_event cfg d e) w in
  scans tr = [] /\ handed tr = [e] /\ writes tr = [] /\ sent tr = []
  /\ (outcome_of (process_event cfg d e) w = Ok false ->
      exists ex, In (Log ERROR (MsgProcessFailed ex)) tr).
Proof.
  destruct (process_event_run cfg d e w) as (tr & b & H & Hs & Hh & Hw & Hn & Hf).
  unfold trace_of, outcome_of. rewrite H. simpl.
  change (handed (CallProcessEvent e :: tr)) with (e :: handed tr).
  change (scans (CallProcessEvent e :: tr)) with (scans tr).
  change (writes (CallProcessEvent e :: tr)) with (writes tr).
  change (sent (CallProcessEvent e :: tr)) with (sent tr).
  rewrite Hs, Hh, Hw, Hn. repeat split; auto.
  intros E. injection E as ->. destruct Hf as [ex Hex]; auto.
  exists ex. right. exact Hex.
Qed.

Lemma for_each_event_run cfg dst events : forall i w,
  for_each_event cfg dst i events w
  = (w, batch_trace cfg dst i events w, Ok tt).
Proof.
  induction events as [|e rest IH]; intros i w; simpl.
  - reflexivity.
  - destruct (process_event_ok cfg (dst i) e w) as [b Hb].
    rewrite (bind_ok _ _ w w (trace_of (process_event cfg (dst i) e) w) b).
    + rewrite IH. reflexivity.
    + rewrite process_event_eq at 1. rewrite Hb. reflexivity.
Qed.

Lemma batch_trace_obs cfg dst events w : forall i,
  let tr := batch_trace cfg dst i events w in
  scans tr = [] /\ handed tr = events /\ writes tr = [] /\ sent tr = [].
Proof.
  induction events as [|e rest IH]; intros i; simpl.
  - repeat split; reflexivity.
  - destruct (process_event_trace cfg (dst i) e w) as (a & b & c & d & _).
    destruct (IH (S i)) as (a' & b' & c' & d').
    rewrite scans_app, handed_app, writes_app, sent_app.
    rewrite a, b, c, d, a', b', c', d'. repeat split; reflexivity.
Qed.


(** ** One pass of the loop, case by case *)

Lemma bind_run {A B} (m : M A) (k : A -> M B) w w1 t1 a w2 t2 r :
  m w = (w1, t1, Ok a) ->
  k a w1 = (w2, t2, r) ->
  bind m k w = (w2, t1 ++ t2, r).
Proof. intros H1 H2. unfold bind. rewrite H1, H2. reflexivity. Qed.

Lemma save_state_run cfg o w :
  let st := dict_set (state w) "last_scanned_block" (last_scanned_block w) in
  let w1 := {| state := st; last_scanned_block := last_scanned_block w;
               relayer_address := relayer_address w; store := store w |} in
  save_state cfg o w =
  match o with
  | Ok _ => (with_store (Holds (JDict st)) w1,
             [WriteFile (state_file cfg) (JDict st);
              Log DEBUG (MsgSavedState (state_file cfg) (last_scanned_block w))],
             Ok tt)
  | Raise e => (w1, [WriteFile (state_file cfg) (JDict st)], Raise e)
  end.
Proof.
  unfold save_state, bind, get, set_state, set_store, call, log, emit, with_store; simpl.
  destruct o; reflexivity.
Qed.

Lemma cycle_head_fails cfg env w t0 e :
  get_latest_block_number cfg (source env) w = (w, t0, Raise e) ->
  cycle cfg env w = (w, t0, Raise e).
Proof. intros H. unfold cycle. apply bind_raise. exact H. Qed.

Lemma cycle_idle cfg env w b t0 h :
  last_scanned_block w = JInt b ->
  get_latest_block_number cfg (source env) w = (w, t0, Ok h) ->
  to_of cfg b h < from_of b ->
  cycle cfg env w =
  if polling_interval_seconds cfg <? 0
  then (w, t0 ++ [Log INFO (MsgNoNewBlocks h)], Raise ValueError)
  else (w, t0 ++ [Log INFO (MsgNoNewBlocks h);
                  Sleep (polling_interval_seconds cfg)], Ok tt).
Proof.
  intros Hb Hl Hlt. unfold cycle.
  assert (E : (b + 1 >? Z.min h (b + 1 + max_blocks_per_scan cfg - 1)) = true).
  { unfold to_of, from_of in Hlt. apply Z.gtb_lt. lia. }
  destruct (polling_interval_seconds cfg <? 0) eqn:P;
    apply (bind_run _ _ _ _ _ _ _ _ _ Hl);
    unfold bind, get, pure, log, emit, sleep, raise; rewrite Hb;
    cbn [py_add]; rewrite E, P; reflexivity.
Qed.

Lemma cycle_scanning cfg env w b t0 h :
  last_scanned_block w = JInt b ->
  get_latest_block_number cfg (source env) w = (w, t0, Ok h) ->
  from_of b <= to_of cfg b h ->
  let f := from_of b in
  let t := to_of cfg b h in
  let name := event_to_listen cfg in
  let events := scanned (get_all_entries (source env) f t name) in
  let pre := t0 ++ trace_of (scan_for_events (source env) f t name) w
                ++ batch_trace cfg (dest env) 0 events w
                ++ [WriteFile (state_file cfg)
                      (JDict (dict_set (state w) "last_scanned_block" (JInt t)))] in
  cycle cfg env w =
  match open_for_write env with
  | Raise e => (advanced cfg w t, pre, Raise e)
  | Ok _ =>
      if polling_interval_seconds cfg <? 0
      then (saved cfg w t,
            pre ++ [Log DEBUG (MsgSavedState (state_file cfg) (JInt t))],
            Raise ValueError)
      else (saved cfg w t,
            pre ++ [Log DEBUG (MsgSavedState (state_file cfg) (JInt t));
                    Sleep (polling_interval_seconds cfg)],
            Ok tt)
  end.
Proof.
  intros Hb Hl Hle f t name events pre. unfold cycle.
  assert (E : (b + 1 >? Z.min h (b + 1 + max_blocks_per_scan cfg - 1)) = false).
  { unfold to_of, from_of in Hle. rewrite Z.gtb_ltb. apply Z.ltb_ge. lia. }
  destruct (scan_for_events_run (source env) f t name w) as (ts & Hs & _).
  assert (Hts : trace_of (scan_for_events (source env) f t name) w = ts).
  { unfold trace_of. rewrite Hs. reflexivity. }
  unfold bind, get, pure, set_last_scanned_block.
  rewrite Hl, Hb. cbn [py_add]. rewrite E.
  change (b + 1) with f.
  change (Z.min h (f + max_blocks_per_scan cfg - 1)) with t.
  fold name. rewrite Hs. fold events.
  replace (match events with
           | [] => ret tt
           | _ :: _ => for_each_event cfg (dest env) 0 events
           end w)
    with (w, batch_trace cfg (dest env) 0 events w, Ok tt).
  2: { destruct events; [reflexivity | symmetry; apply for_each_event_run]. }
  rewrite save_state_run. cbn [last_scanned_block state relayer_address store].
  unfold pre. rewrite Hts. unfold saved, advanced, with_store, sleep, raise, emit.
  destruct (open_for_write env) as [u|e];
    [destruct (polling_interval_seconds cfg <? 0)|];
    cbn [last_scanned_block state relayer_address store app];
    repeat rewrite <- app_assoc; reflexivity.
Qed.

Lemma persisted_saved cfg w t : persisted (saved cfg w t) = Some (JInt t).
Proof. unfold persisted, saved, with_store; simpl. now rewrite dict_get_set. Qed.

Lemma scanning_trace_obs cfg env w f t t0 (tl : list Action) :
  quiet t0 -> scans tl = [] -> handed tl = [] -> sent tl = [] ->
  let name := event_to_listen cfg in
  let events := scanned (get_all_entries (source env) f t name) in
  let tr := (t0 ++ trace_of (scan_for_events (source env) f t name) w
                ++ batch_trace cfg (dest env) 0 events w ++ tl) in
  scans tr = [(f, t)] /\ handed tr = events /\ sent tr = [].
Proof.
  intros (a0 & b0 & _ & d0) a1 b1 d1 name events tr. unfold tr.
  destruct (scan_for_events_run (source env) f t name w)
    as (ts & Hs & a2 & b2 & _ & d2).
  replace (trace_of (scan_for_events (source env) f t name) w) with ts
    by (unfold trace_of; now rewrite Hs).
  destruct (batch_trace_obs cfg (dest env) events w 0%nat) as (a3 & b3 & _ & d3).
  rewrite !scans_app, !handed_app, !sent_app.
  rewrite a0, a1, a2, a3, b0, b1, b2, b3, d0, d1, d2, d3.
  simpl. rewrite app_nil_r. auto.
Qed.

(** What one pass can do to the cursor, the state file and the trace. *)
Lemma cycle_cases cfg env w b :
  last_scanned_block w = JInt b ->
  exists w' tr r,
    cycle cfg env w = (w', tr, r) /\
    ((w' = w /\ quiet tr) \/
     (exists h,
        let f := from_of b in
        let t := to_of cfg b h in
        f <= t /\ scans tr = [(f, t)] /\
        handed tr
        = scanned (get_all_entries (source env) f t (event_to_listen cfg)) /\
        last_scanned_block w' = JInt t /\
        ((store w' = store w /\ r <> Ok tt) \/
         persisted w' = Some (JInt t)))).
Proof.
  intros Hb.
  destruct (get_latest_block_number_run cfg (source env) w)
    as (t0 & rl & Hl & Hq).
  destruct rl as [h|e].
  2: { do 3 eexists. split; [apply cycle_head_fails; exact Hl|]. left; auto. }
  destruct (Z_lt_le_dec (to_of cfg b h) (from_of b)) as [Hlt|Hle].
  - rewrite (cycle_idle cfg env w b t0 h Hb Hl Hlt).
    destruct (polling_interval_seconds cfg <? 0);
      (do 3 eexists; split; [reflexivity|]; left; split; [reflexivity|]);
      apply quiet_app; auto; repeat split; reflexivity.
  - rewrite (cycle_scanning cfg env w b t0 h Hb Hl Hle).
    set (wr := [WriteFile (state_file cfg)
                  (JDict (dict_set (state w) "last_scanned_block"
                                   (JInt (to_of cfg b h))))]).
    destruct (open_for_write env) as [u|e];
      [destruct (polling_interval_seconds cfg <? 0)|];
      (do 3 eexists; split; [reflexivity|]; right; exists h; cbv zeta;
       split; [exact Hle|]).
    + repeat rewrite <- app_assoc.
      destruct (scanning_trace_obs cfg env w (from_of b) (to_of cfg b h) t0
                  (wr ++ [Log DEBUG (MsgSavedState (state_file cfg)
                                       (JInt (to_of cfg b h)))])
                  Hq eq_refl eq_refl eq_refl) as (a & c & _).
      rewrite a, c. repeat split; auto. right. apply persisted_saved.
    + repeat rewrite <- app_assoc.
      destruct (scanning_trace_obs cfg env w (from_of b) (to_of cfg b h) t0
                  (wr ++ [Log DEBUG (MsgSavedState (state_file cfg)
                                       (JInt (to_of cfg b h)));
                          Sleep (polling_interval_seconds cfg)])
                  Hq eq_refl eq_refl eq_refl) as (a & c & _).
      rewrite a, c. repeat split; auto. right. apply persisted_saved.
    + destruct (scanning_trace_obs cfg env w (from_of b) (to_of cfg b h) t0
                  wr Hq eq_refl eq_refl eq_refl) as (a & c & _).
      rewrite a, c. repeat split; auto. left. split; [reflexivity | discriminate].
Qed.

(** ** Consecutive passes *)

Lemma loop_cons_ok cfg env rest w w1 tr1 :
  cycle cfg env w = (w1, tr1, Ok tt) ->
  loop cfg (env :: rest) w
  = (fst (fst (loop cfg rest w1)), tr1 ++ snd (fst (loop cfg rest w1)),
     snd (loop cfg rest w1)).
Proof.
  intros H. simpl.
  apply (bind_ok (cycle cfg env) (fun _ => loop cfg rest) _ _ _ _ H).
Qed.

Lemma loop_cons_raise cfg env rest w w1 tr1 e :
  cycle cfg env w = (w1, tr1, Raise e) ->
  loop cfg (env :: rest) w = (w1, tr1, Raise e).
Proof.
  intros H. simpl.
  apply (bind_raise (cycle cfg env) (fun _ => loop cfg rest) _ _ _ _ H).
Qed.

(** An event in a requested range was handed over, or the node refused the
    range. *)
Lemma pass_covers cfg chain env f t tr e :
  honest cfg chain env ->
  scans tr = [(f, t)] ->
  handed tr = scanned (get_all_entries (source env) f t (event_to_listen cfg)) ->
  In e chain -> f <= blockNumber e <= t ->
  In e (handed tr) \/
  exists ex,
    get_all_entries (source env) f t (event_to_listen cfg) = Raise ex.
Proof.
  intros Hh _ Hd Hin Hr. rewrite Hd.
  destruct (get_all_entries (source env) f t (event_to_listen cfg))
    as [l|ex] eqn:E.
  - left. simpl. eapply Hh; eauto.
  - right. exists ex. reflexivity.
Qed.

Lemma loop_invariant cfg chain envs : forall w b w' tr r,
  last_scanned_block w = JInt b ->
  Forall (honest cfg chain) envs ->
  loop cfg envs w = (w', tr, r) ->
  exists c,
    last_scanned_block w' = JInt c /\
    tiles b (scans tr) c /\
    (scans tr = [] -> w' = w) /\
    (store w' = store w \/
     exists c' p q,
       persisted w' = Some (JInt c') /\ scans tr = p ++ q /\ p <> [] /\
       tiles b p c') /\
    (r = Ok tt -> scans tr <> [] -> persisted w' = Some (JInt c)) /\
    (forall e, In e chain -> b < blockNumber e <= c ->
       In e (handed tr) \/ refused_in cfg envs tr e).
Proof.
  induction envs as [|env rest IH]; intros w b w' tr r Hb Hh Hrun.
  - simpl in Hrun. injection Hrun as <- <- <-. exists b.
    repeat split; auto; simpl; try congruence. intros e _ Hr. lia.
  - inversion Hh as [|? ? Hhe Hhr]; subst.
    destruct (cycle_cases cfg env w b Hb) as (w1 & tr1 & r1 & Hc & Hcase).
    destruct Hcase as [[-> (qs & qh & _)] | (h & Hle & Hs & Hd & Hl1 & Hst)].
    + (* the pass left the world as it was *)
      destruct r1 as [[]|ex].
      * rewrite (loop_cons_ok _ _ _ _ _ _ Hc) in Hrun.
        destruct (loop cfg rest w) as [[w2 tr2] r2] eqn:E2. simpl in Hrun.
        injection Hrun as <- <- <-.
        destruct (IH _ _ _ _ _ Hb Hhr E2) as (c & I1 & I2 & I3 & I4 & I5 & I6).
        exists c. rewrite scans_app, handed_app, qs, qh. simpl.
        repeat split; auto.
        intros e He Hr. destruct (I6 e He Hr) as [?|(en & f & t & ex & X)].
        { left; auto. }
        right. exists en, f, t, ex. rewrite scans_app, qs. simpl.
        intuition.
      * rewrite (loop_cons_raise _ _ _ _ _ _ _ Hc) in Hrun.
        injection Hrun as <- <- <-. exists b. rewrite qs.
        repeat split; auto; simpl; try congruence. intros e _ Hr. lia.
    + (* the pass scanned [from_of b .. to_of cfg b h] *)
      cbv zeta in *.
      set (f := from_of b) in *. set (t := to_of cfg b h) in *.
      assert (Hcov : forall e, In e chain -> f <= blockNumber e <= t ->
                In e (handed tr1) \/ refused_in cfg (env :: rest) tr1 e).
      { intros e He Hr.
        destruct (pass_covers cfg chain env f t tr1 e Hhe Hs Hd He Hr)
          as [?|[ex Hex]]; [left; auto|].
        right. exists env, f, t, ex. rewrite Hs. simpl. auto. }
      destruct r1 as [[]|ex].
      * assert (Hp1 : persisted w1 = Some (JInt t)).
        { destruct Hst as [[_ N]|?]; [congruence | assumption]. }
        rewrite (loop_cons_ok _ _ _ _ _ _ Hc) in Hrun.
        destruct (loop cfg rest w1) as [[w2 tr2] r2] eqn:E2. simpl in Hrun.
        injection Hrun as <- <- <-.
        destruct (IH _ _ _ _ _ Hl1 Hhr E2) as (c & I1 & I2 & I3 & I4 & I5 & I6).
        exists c. rewrite scans_app, handed_app, Hs. simpl.
        split; [exact I1|]. split; [auto|]. split; [discriminate|].
        split; [|split].
        { right. destruct I4 as [Same|(c' & p & q & P1 & P2 & P3 & P4)].
          - exists t, [(f, t)], (scans tr2). unfold persisted in *.
            rewrite Same. repeat split; auto. discriminate.
          - exists c', ((f, t) :: p), q. rewrite P2.
            repeat split; auto. discriminate. }
        { intros Hr _. destruct (scans tr2) eqn:S2.
          - rewrite (I3 eq_refl) in *. congruence.
          - apply I5; auto. discriminate. }
        intros e He Hr.
        destruct (Z_le_gt_dec (blockNumber e) t) as [Le|Gt].
        { destruct (Hcov e He) as [?|(en & f' & t' & ex & A & B & C & D)].
          - unfold f, from_of; lia.
          - left. apply in_or_app; auto.
          - right. exists en, f', t', ex. rewrite scans_app.
            repeat split; auto; try lia. apply in_or_app; auto. }
        destruct (I6 e He) as [?|(en & f' & t' & ex & A & B & C & D)].
        { lia. }
        { left. apply in_or_app; auto. }
        right. exists en, f', t', ex. rewrite scans_app, Hs.
        repeat split; auto; try lia. simpl; auto. simpl; auto.
      * rewrite (loop_cons_raise _ _ _ _ _ _ _ Hc) in Hrun.
        injection Hrun as <- <- <-. exists t. rewrite Hs. simpl.
        split; [exact Hl1|]. split; [auto|]. split; [discriminate|].
        split; [|split; [discriminate|]].
        { destruct Hst as [[Same _]|P]; [left; exact Same|].
          right. exists t, [(f, t)], []. simpl.
          repeat split; auto. discriminate. }
        intros e He Hr. apply Hcov; auto. unfold f, from_of; lia.
Qed.


(** * The claims *)

(** ** C1: coverage of the scanned blocks *)




(** What a pass that scans leaves behind. *)
Lemma cycle_scanning_obs cfg env w b t0 h :
  last_scanned_block w = JInt b ->
  get_latest_block_number cfg (source env) w = (w, t0, Ok h) ->
  from_of b <= to_of cfg b h ->
  let f := from_of b in
  let t := to_of cfg b h in
  let events :=
    scanned (get_all_entries (source env) f t (event_to_listen cfg)) in
  exists w' tr r,
    cycle cfg env w = (w', tr, r) /\
    scans tr = [(f, t)] /\ handed tr = events /\ sent tr = [] /\
    incl (batch_trace cfg (dest env) 0 events w) tr /\
    last_scanned_block w' = JInt t /\
    match open_for_write env with
    | Ok _ =>
        w' = saved cfg w t /\
        if polling_interval_seconds cfg <? 0 then r = Raise ValueError
        else r = Ok tt /\
             exists tr0, tr = tr0 ++ [Sleep (polling_interval_seconds cfg)]
    | Raise e => w' = advanced cfg w t /\ r = Raise e
    end.
Proof.
  intros Hb Hl Hle f t events.
  assert (Hq : quiet t0).
  { destruct (get_latest_block_number_run cfg (source env) w)
      as (t0' & r' & E & Q). rewrite Hl in E. now injection E as <- <-. }
  rewrite (cycle_scanning cfg env w b t0 h Hb Hl Hle).
  fold f t events.
  set (wr := [WriteFile (state_file cfg)
                (JDict (dict_set (state w) "last_scanned_block" (JInt t)))]).
  set (ts := trace_of (scan_for_events (source env) f t (event_to_listen cfg)) w).
  set (tb := batch_trace cfg (dest env) 0 events w).
  assert (Hin : forall tl, incl tb (t0 ++ ts ++ tb ++ tl)).
  { intros tl a Ha. apply in_or_app; right. apply in_or_app; right.
    apply in_or_app; left. exact Ha. }
  destruct (open_for_write env) as [u|e];
    [destruct (polling_interval_seconds cfg <? 0)|];
    (do 3 eexists; split; [reflexivity|]).
  - repeat rewrite <- app_assoc.
    destruct (scanning_trace_obs cfg env w f t t0
                (wr ++ [Log DEBUG (MsgSavedState (state_file cfg) (JInt t))])
                Hq eq_refl eq_refl eq_refl) as (a & c & d).
    repeat split; auto.
  - destruct (scanning_trace_obs cfg env w f t t0
                (wr ++ [Log DEBUG (MsgSavedState (state_file cfg) (JInt t));
                        Sleep (polling_interval_seconds cfg)])
                Hq eq_refl eq_refl eq_refl) as (a & c & d).
    repeat rewrite <- app_assoc. repeat split; auto.
    exists (t0 ++ ts ++ tb ++ wr
            ++ [Log DEBUG (MsgSavedState (state_file cfg) (JInt t))]).
    repeat rewrite <- app_assoc. reflexivity.
  - destruct (scanning_trace_obs cfg env w f t t0 wr
                Hq eq_refl eq_refl eq_refl) as (a & c & d).
    repeat split; auto.
Qed.

(** ** C2: a range the node refuses *)

(** C2, as worded, fails: the node refuses [601, 700], and the pass ends
    with the cursor at 700. *)
Lemma refused_range_moves_cursor :
  ~ cursor_held_as_claimed CONFIG
      (pass 1000 (fun _ _ _ => Raise BlockNotFound) (fun _ => dest_ok))
      (world_at (JInt 600)).
Proof.
  intros H.
  assert (Hle : from_of 600 <= to_of CONFIG 600 1000) by (vm_compute; discriminate).
  specialize (H 600 [BlockNumber] 1000 _ _ _ eq_refl eq_refl Hle
                (ex_intro _ BlockNotFound eq_refl) eq_refl).
  discriminate H.
Qed.

(** C2 (amended).  When the node refuses the requested range, the scan
    yields an empty list for that attempt, no event is handed over, and the
    pass moves the cursor to the end of that range all the same (and
    persists it when the state file can be written); the next pass asks for
    the range that starts one block after it. *)
Theorem refused_range_advances cfg env w b t0 h :
  last_scanned_block w = JInt b ->
  get_latest_block_number cfg (source env) w = (w, t0, Ok h) ->
  from_of b <= to_of cfg b h ->
  range_rejected cfg env b h ->
  outcome_of (scan_for_events (source env) (from_of b) (to_of cfg b h)
                (event_to_listen cfg)) w = Ok [] /\
  exists w' tr r,
    cycle cfg env w = (w', tr, r) /\
    scans tr = [(from_of b, to_of cfg b h)] /\
    handed tr = [] /\
    last_scanned_block w' = JInt (to_of cfg b h) /\
    (open_for_write env = Ok tt ->
     persisted w' = Some (JInt (to_of cfg b h))) /\
    forall env2 w2 tr2 r2,
      cycle cfg env2 w' = (w2, tr2, r2) ->
      forall f2 t2, In (f2, t2) (scans tr2) -> f2 = to_of cfg b h + 1.
Proof.
  intros Hb Hl Hle [ex Hex]. split.
  - destruct (scan_for_events_run (source env) (from_of b) (to_of cfg b h)
                (event_to_listen cfg) w) as (ts & Hs & _).
    unfold outcome_of. rewrite Hs, Hex. reflexivity.
  - destruct (cycle_scanning_obs cfg env w b t0 h Hb Hl Hle)
      as (w' & tr & r & Hc & Hs & Hd & _ & _ & Hl' & Hw).
    exists w', tr, r. rewrite Hex in Hd. simpl in Hd.
    repeat split; auto.
    + intros Ho. rewrite Ho in Hw. destruct Hw as [-> _].
      apply persisted_saved.
    + intros env2 w2 tr2 r2 Hc2 f2 t2 Hin.
      destruct (cycle_cases cfg env2 w' _ Hl')
        as (w3 & tr3 & r3 & Hc3 & Hcase).
      rewrite Hc2 in Hc3. injection Hc3 as <- <- <-.
      destruct Hcase as [[_ (qs & _)] | (h2 & _ & Hs2 & _)].
      * rewrite qs in Hin. destruct Hin.
      * cbv zeta in Hs2. rewrite Hs2 in Hin. destruct Hin as [E|[]].
        injection E as <- _. reflexivity.
Qed.

(** Cursor 600, head 1000, the node refuses every range. *)
Lemma refused_range_advances_witness :
  exists w' tr r,
    cycle CONFIG
      (pass 1000 (fun _ _ _ => Raise BlockNotFound) (fun _ => dest_ok))
      (world_at (JInt 600)) = (w', tr, r) /\
    scans tr = [(601, 700)] /\ last_scanned_block w' = JInt 700.
Proof.
  assert (Hle : from_of 600 <= to_of CONFIG 600 1000)
    by (vm_compute; discriminate).
  destruct (refused_range_advances CONFIG
              (pass 1000 (fun _ _ _ => Raise BlockNotFound) (fun _ => dest_ok))
              (world_at (JInt 600)) 600 [BlockNumber] 1000
              eq_refl eq_refl Hle (ex_intro _ BlockNotFound eq_refl))
    as (_ & w' & tr & r & A & B & _ & C & _).
  exists w', tr, r. repeat split; assumption.
Defined.

(** ** C3: the range of a pass *)

(** C3.  With cursor [b] and observed head [h] the pass asks for
    [from = b + 1] to [to = min h (from + max_blocks_per_scan - 1)], so
    [to - from + 1 <= max_blocks_per_scan]; when [from > to] it scans
    nothing, processes nothing, writes nothing, and sleeps the polling
    interval. *)
Theorem chunk_bound_and_idle cfg env w b t0 h :
  last_scanned_block w = JInt b ->
  get_latest_block_number cfg (source env) w = (w, t0, Ok h) ->
  0 <= polling_interval_seconds cfg ->
  let from_block := b + 1 in
  let to_block := Z.min h (from_block + max_blocks_per_scan cfg - 1) in
  to_block - from_block + 1 <= max_blocks_per_scan cfg /\
  (from_block <= to_block ->
   scans (trace_of (cycle cfg env) w) = [(from_block, to_block)]) /\
  (from_block > to_block ->
   let tr := t0 ++ [Log INFO (MsgNoNewBlocks h);
                    Sleep (polling_interval_seconds cfg)] in
   cycle cfg env w = (w, tr, Ok tt) /\
   scans tr = [] /\ handed tr = [] /\ writes tr = [] /\ sent tr = []).
Proof.
  intros Hb Hl Hp from_block to_block.
  split; [unfold to_block; lia|]. split.
  - intros Hle.
    destruct (cycle_scanning_obs cfg env w b t0 h Hb Hl Hle)
      as (w' & tr & r & Hc & Hs & _).
    unfold trace_of. rewrite Hc. exact Hs.
  - intros Hgt tr.
    assert (Hq : quiet t0).
    { destruct (get_latest_block_number_run cfg (source env) w)
        as (t0' & r' & E & Q). rewrite Hl in E. now injection E as <- <-. }
    assert (Hlt : to_of cfg b h < from_of b)
      by (unfold to_of, from_of; fold from_block; fold to_block; lia).
    rewrite (cycle_idle cfg env w b t0 h Hb Hl Hlt).
    replace (polling_interval_seconds cfg <? 0) with false
      by (symmetry; apply Z.ltb_ge; lia).
    split; [reflexivity|].
    apply (quiet_app t0 _ Hq). repeat split; reflexivity.
Qed.

(** Cursor 1000, head 1000: nothing to scan. *)
Lemma chunk_bound_and_idle_witness :
  cycle CONFIG (pass 1000 (answering sample_chain) (fun _ => dest_ok))
        (world_at (JInt 1000))
  = (world_at (JInt 1000),
     [BlockNumber; Log INFO (MsgNoNewBlocks 1000); Sleep 30], Ok tt).
Proof.
  assert (Hp : 0 <= polling_interval_seconds CONFIG)
    by (vm_compute; discriminate).
  assert (Hgt : 1000 + 1 > Z.min 1000 (1000 + 1 + max_blocks_per_scan CONFIG - 1))
    by reflexivity.
  exact (proj1 (proj2 (proj2
    (chunk_bound_and_idle CONFIG
       (pass 1000 (answering sample_chain) (fun _ => dest_ok))
       (world_at (JInt 1000)) 1000 [BlockNumber] 1000 eq_refl eq_refl Hp))
    Hgt)).
Defined.

(** ** C8: sleeping between passes *)

(** C8, as worded, fails: cursor 500, head 650: the pass scans
    [501, 600], persists 600 with backlog left, and still sleeps the 30
    seconds of the polling interval. *)
Lemma sleeps_with_backlog :
  ~ no_sleep_with_backlog_as_claimed CONFIG
      (pass 650 (answering sample_chain) (fun _ => dest_ok))
      (world_at (JInt 500)).
Proof.
  intros H.
  assert (Hle : from_of 500 <= to_of CONFIG 500 650)
    by (vm_compute; discriminate).
  assert (Hlt : to_of CONFIG 500 650 < 650) by reflexivity.
  specialize (H 500 [BlockNumber] 650 _ _ eq_refl eq_refl Hle Hlt eq_refl).
  apply H. vm_compute. auto 10.
Qed.

(** C8 (amended).  A pass that scanned and completed has persisted
    [lastScannedBlock = to] and ends by sleeping the polling interval,
    whether backlog remains ([to < headBlock]) or not; the loop never starts
    the next range without that sleep. *)
Theorem completed_pass_always_sleeps cfg env w b t0 h w' tr :
  last_scanned_block w = JInt b ->
  get_latest_block_number cfg (source env) w = (w, t0, Ok h) ->
  from_of b <= to_of cfg b h ->
  cycle cfg env w = (w', tr, Ok tt) ->
  persisted w' = Some (JInt (to_of cfg b h)) /\
  exists tr0, tr = tr0 ++ [Sleep (polling_interval_seconds cfg)].
Proof.
  intros Hb Hl Hle Hc.
  destruct (cycle_scanning_obs cfg env w b t0 h Hb Hl Hle)
    as (w1 & tr1 & r1 & Hc1 & _ & _ & _ & _ & _ & Hw).
  rewrite Hc in Hc1. injection Hc1 as <- <- <-.
  destruct (open_for_write env) as [u|e].
  - destruct Hw as [-> Hr]. split; [apply persisted_saved|].
    destruct (polling_interval_seconds cfg <? 0); [discriminate Hr|].
    exact (proj2 Hr).
  - destruct Hw as [_ Hr]. discriminate Hr.
Qed.

(** Cursor 500, head 650: backlog is left after the pass. *)
Lemma completed_pass_always_sleeps_witness :
  exists w' tr tr0,
    cycle CONFIG (pass 650 (answering sample_chain) (fun _ => dest_ok))
          (world_at (JInt 500)) = (w', tr, Ok tt) /\
    to_of CONFIG 500 650 < 650 /\
    persisted w' = Some (JInt 600) /\ tr = tr0 ++ [Sleep 30].
Proof.
  assert (Hle : from_of 500 <= to_of CONFIG 500 650)
    by (vm_compute; discriminate).
  destruct (completed_pass_always_sleeps CONFIG
              (pass 650 (answering sample_chain) (fun _ => dest_ok))
              (world_at (JInt 500)) 500 [BlockNumber] 650 _ _
              eq_refl eq_refl Hle eq_refl) as (A & tr0 & B).
  do 3 eexists. split; [reflexivity|]. split; [reflexivity|].
  split; [exact A | exact B].
Defined.

(** ** C4: from the event to the destination call *)

(** C4.  For a decoded event whose amount web3 accepts, and with the nonce
    and gas price lookups answered, [process_event] builds exactly one
    destination call: [mintTokens] with the event's token, recipient and
    amount, and the source transaction hash as the idempotency argument.
    The call depends on the event alone. *)
Theorem translation_one_to_one cfg d e w ether nonce gp :
  from_wei d (amount (args e)) = Ok ether ->
  get_transaction_count d (relayer_address w) = Ok nonce ->
  gas_price d = Ok gp ->
  built (trace_of (process_event cfg d e) w)
  = [{| fn_name := "mintTokens";
        arg_token := token (args e);
        arg_recipient := recipient (args e);
        arg_amount := amount (args e);
        arg_sourceTransactionHash := transactionHash e |}].
Proof.
  intros Hw Hn Hg. unfold trace_of. run_process.
  rewrite Hw; simpl. rewrite Hn; simpl. rewrite Hg; simpl.
  destruct (build_transaction d _ _) as [tx|ex]; simpl; [|reflexivity].
  destruct (sign_transaction d tx (private_key cfg)) as [raw|ex]; reflexivity.
Qed.

(** The event of transaction h1. *)
Lemma translation_one_to_one_witness :
  built (trace_of (process_event CONFIG dest_ok (locked "h1" 550 0))
                  (world_at (JInt 500)))
  = [{| fn_name := "mintTokens";
        arg_token := "T";
        arg_recipient := "R";
        arg_amount := 10;
        arg_sourceTransactionHash := "h1" |}].
Proof.
  exact (translation_one_to_one CONFIG dest_ok (locked "h1" 550 0)
           (world_at (JInt 500)) "1" 7 5 eq_refl eq_refl eq_refl).
Defined.

(** ** C5: order of delivery *)

(** C5, as worded, fails: the code never sorts.  The node answers with the
    event of block 590 before the event of block 550, and the pass hands
    them to [process_event] in that order. *)
Lemma unsorted_answer_is_delivered_unsorted :
  ~ ascending_delivery_as_claimed CONFIG
      (pass 650 (fun _ _ _ => Ok unsorted_answer) (fun _ => dest_ok))
      (world_at (JInt 500)).
Proof.
  intros H.
  assert (Hle : from_of 500 <= to_of CONFIG 500 650)
    by (vm_compute; discriminate).
  specialize (H 500 [BlockNumber] 650 unsorted_answer
                eq_refl eq_refl Hle eq_refl).
  vm_compute in H.
  inversion H as [|e l _ Hall]; subst.
  inversion Hall as [|e' l' Hb _]; subst.
  destruct Hb as [Hlt | [Heq _]].
  - vm_compute in Hlt. discriminate Hlt.
  - discriminate Heq.
Qed.

(** C5 (amended).  The events of one scan reach [process_event] in exactly
    the order in which the scan returned them, which is the order of the
    node's answer: nothing is sorted, dropped, repeated or moved on the
    way. *)
Theorem delivery_keeps_node_order cfg env w b t0 h events :
  last_scanned_block w = JInt b ->
  get_latest_block_number cfg (source env) w = (w, t0, Ok h) ->
  from_of b <= to_of cfg b h ->
  get_all_entries (source env) (from_of b) (to_of cfg b h)
                  (event_to_listen cfg) = Ok events ->
  outcome_of (scan_for_events (source env) (from_of b) (to_of cfg b h)
                (event_to_listen cfg)) w = Ok events /\
  handed (trace_of (cycle cfg env) w) = events.
Proof.
  intros Hb Hl Hle Ha.
  destruct (scan_for_events_run (source env) (from_of b) (to_of cfg b h)
              (event_to_listen cfg) w) as (ts & Hs & _).
  destruct (cycle_scanning_obs cfg env w b t0 h Hb Hl Hle)
    as (w' & tr & r & Hc & _ & Hd & _).
  rewrite Ha in Hs, Hd. simpl in Hs, Hd.
  unfold outcome_of, trace_of. rewrite Hs, Hc. simpl. auto.
Qed.

(** The node answers out of block order; the events are handed over as
    answered. *)
Lemma delivery_keeps_node_order_witness :
  handed (trace_of (cycle CONFIG
                      (pass 650 (fun _ _ _ => Ok unsorted_answer)
                            (fun _ => dest_ok)))
                   (world_at (JInt 500)))
  = [locked "h3" 590 0; locked "h1" 550 0].
Proof.
  assert (Hle : from_of 500 <= to_of CONFIG 500 650)
    by (vm_compute; discriminate).
  exact (proj2
    (delivery_keeps_node_order CONFIG
       (pass 650 (fun _ _ _ => Ok unsorted_answer) (fun _ => dest_ok))
       (world_at (JInt 500)) 500 [BlockNumber] 650 unsorted_answer
       eq_refl eq_refl Hle eq_refl)).
Defined.

(** ** C6: one attempt per event, failures kept apart *)



(** ** C7: the simulated submission *)

(** C7, as worded, fails: [process_event] hands back [True] for two events
    whose signed payloads have different hashes, so the returned value is
    not the content hash. *)
Lemma returned_value_is_not_the_hash :
  ~ returns_receipt_hash_as_claimed CONFIG (world_at (JInt 500)).
Proof.
  intros [receipt H].
  assert (H1 := H dest_ok (locked "h1" 550 0) true
                  (mintTokens "T" "R" 10 "h1")
                  (payload_of (world_at (JInt 500)) 7 5) "h1" "0xaaaah1"
                  eq_refl).
  assert (H2 := H dest_ok (locked "h2" 550 1) true
                  (mintTokens "T" "R" 10 "h2")
                  (payload_of (world_at (JInt 500)) 7 5) "h2" "0xaaaah2"
                  eq_refl).
  assert (E1 : receipt true = "0xk0xaaaah1").
  { apply H1; [vm_compute; auto 10 | reflexivity | reflexivity]. }
  assert (E2 : receipt true = "0xk0xaaaah2").
  { apply H2; [vm_compute; auto 10 | reflexivity | reflexivity]. }
  rewrite E1 in E2. discriminate E2.
Qed.

(** C7 (amended).  The pipeline only ever simulates: for an event whose
    lookups, build and signature succeed it builds and signs the call once,
    sends nothing to the network, logs the keccak hash of the raw signed
    transaction as the simulated receipt, and hands back [True]; the hash is
    a function of the signed payload. *)
Theorem simulated_submission cfg d e w ether nonce gp tx raw :
  from_wei d (amount (args e)) = Ok ether ->
  get_transaction_count d (relayer_address w) = Ok nonce ->
  gas_price d = Ok gp ->
  build_transaction d
    (mintTokens (token (args e)) (recipient (args e)) (amount (args e))
                (transactionHash e))
    (payload_of w nonce gp) = Ok tx ->
  sign_transaction d tx (private_key cfg) = Ok raw ->
  exists tr,
    process_event cfg d e w = (w, tr, Ok true) /\
    signed tr = [tx] /\
    sent tr = [] /\
    In (Log INFO (MsgSimulatedSent (hex d (keccak d raw)))) tr.
Proof.
  intros Hw Hn Hg Hb Hs. unfold payload_of in Hb. run_process.
  rewrite Hw; simpl. rewrite Hn; simpl. rewrite Hg; simpl.
  rewrite Hb; simpl. rewrite Hs; simpl.
  eexists. split; [reflexivity|]. repeat split; simpl; auto 20.
Qed.

(** The event of transaction h1 on a destination node that answers. *)
Lemma simulated_submission_witness :
  exists tr,
    process_event CONFIG dest_ok (locked "h1" 550 0) (world_at (JInt 500))
    = (world_at (JInt 500), tr, Ok true) /\
    signed tr = ["h1"] /\
    sent tr = [] /\
    In (Log INFO (MsgSimulatedSent "0xk0xaaaah1")) tr.
Proof.
  exact (simulated_submission CONFIG dest_ok (locked "h1" 550 0)
           (world_at (JInt 500)) "1" 7 5 "h1" "0xaaaah1"
           eq_refl eq_refl eq_refl eq_refl eq_refl).
Defined.

(** ** C9: loading the state file *)

(** C9, as worded, fails: on a state file that exists and cannot be parsed,
    [load_state] raises. *)
Lemma load_state_raises_on_corrupt_file :
  ~ load_never_throws_as_claimed CONFIG
      (with_store Unparseable (world_at JNull)).
Proof. intros (w' & tr & v & H). vm_compute in H. discriminate H. Qed.

(** C9 (amended).  On a missing state file [load_state] hands back an empty
    state without raising, so the cursor is absent and the caller resolves
    the starting block; on a file that exists and cannot be parsed it raises,
    and the process ends with status 1 before the loop is entered. *)
Theorem load_state_cases cfg w :
  load_state cfg (with_store NoFile w)
  = (with_store NoFile w, [], Ok (JDict [])) /\
  (forall ie,
     last_scanned_block (fst (fst (init cfg ie (with_store NoFile w))))
     = JNull) /\
  load_state cfg (with_store Unparseable w)
  = (with_store Unparseable w,
     [Log INFO (MsgLoadingState (state_file cfg))], Raise JSONDecodeError) /\
  (forall ie n envs,
     main cfg ie n envs (with_store Unparseable w)
     = (with_store Unparseable w,
        [Log INFO (MsgLoadingState (state_file cfg));
         Log CRITICAL (MsgCannotStart JSONDecodeError)],
        Ok 1)).
Proof.
  split; [reflexivity|]. split; [|split; [reflexivity|]].
  - intros [src sc dpc dcid dc fk].
    unfold init, load_state, connect, bind, try_except, get, ret, raise,
      pure, log, emit, set_state, set_last_scanned_block,
      set_relayer_address; simpl.
    destruct (provider_connected src), (chain_id src), sc, dpc, dcid, dc,
      (fk (private_key cfg)); reflexivity.
  - intros ie n envs. reflexivity.
Qed.

(** ** C10: a falsy cursor at startup *)

Lemma get_latest_block_number_indep cfg n w w0 :
  get_latest_block_number cfg n w
  = (w, trace_of (get_latest_block_number cfg n) w0,
     outcome_of (get_latest_block_number cfg n) w0).
Proof.
  unfold trace_of, outcome_of, get_latest_block_number, connect.
  destruct n as [ic pc cid bn ans]; simpl.
  destruct ic, pc, cid, bn; reflexivity.
Qed.

Lemma startup_falsy cfg n w w0 :
  truthy (last_scanned_block w) = false ->
  startup cfg n w =
  match initial_scan_block cfg with
  | FromBlock k =>
      (with_cursor (JInt k) w,
       [Log INFO MsgStartingUp; Log INFO (MsgNoPreviousState (JInt k))],
       Ok tt)
  | Latest =>
      match outcome_of (get_latest_block_number cfg n) w0 with
      | Ok h =>
          (with_cursor (JInt h) w,
           Log INFO MsgStartingUp
           :: trace_of (get_latest_block_number cfg n) w0
           ++ [Log INFO (MsgNoPreviousState (JInt h))],
           Ok tt)
      | Raise e =>
          (w,
           Log INFO MsgStartingUp
           :: trace_of (get_latest_block_number cfg n) w0,
           Raise e)
      end
  end.
Proof.
  intros Hf. unfold startup.
  unfold bind at 1 2. unfold log at 1, emit at 1, get at 1.
  rewrite Hf. cbn [negb].
  destruct (initial_scan_block cfg) as [|k].
  - unfold bind. rewrite (get_latest_block_number_indep cfg n w w0).
    destruct (outcome_of (get_latest_block_number cfg n) w0) as [h|ex];
      unfold set_last_scanned_block, get, log, emit, with_cursor; simpl.
    + rewrite app_nil_r. reflexivity.
    + reflexivity.
  - reflexivity.
Qed.

(** C10.  At startup a cursor that is 0, null or otherwise falsy is treated
    as an absent one: the same steps are taken, and the starting block is
    resolved from [initial_scan_block] (the chain head for "latest", else
    the configured number); the loaded value is dropped. *)
Theorem falsy_cursor_is_absent cfg n w :
  truthy (last_scanned_block w) = false ->
  let absent := with_cursor JNull w in
  trace_of (startup cfg n) w = trace_of (startup cfg n) absent /\
  outcome_of (startup cfg n) w = outcome_of (startup cfg n) absent /\
  (outcome_of (startup cfg n) w = Ok tt ->
   fst (fst (startup cfg n w)) = fst (fst (startup cfg n absent)) /\
   match initial_scan_block cfg with
   | FromBlock k =>
       last_scanned_block (fst (fst (startup cfg n w))) = JInt k
   | Latest =>
       exists h,
         outcome_of (get_latest_block_number cfg n) w = Ok h /\
         last_scanned_block (fst (fst (startup cfg n w))) = JInt h
   end).
Proof.
  intros Hf absent.
  assert (Hf' : truthy (last_scanned_block absent) = false) by reflexivity.
  unfold trace_of at 1 2, outcome_of at 1 2 3.
  rewrite (startup_falsy cfg n w w Hf).
  rewrite (startup_falsy cfg n absent w Hf').
  destruct (initial_scan_block cfg) as [|k].
  - destruct (outcome_of (get_latest_block_number cfg n) w) as [h|ex]; simpl.
    + repeat split; auto. exists h. auto.
    + repeat split; auto; discriminate.
  - simpl. repeat split; auto.
Qed.

(** A state file with cursor 0, initial_scan_block = latest, head 1000. *)
Lemma falsy_cursor_is_absent_witness :
  last_scanned_block (fst (fst (init CONFIG init_ok stored_zero))) = JInt 0 /\
  last_scanned_block
    (fst (fst (startup CONFIG (node_at 1000 (answering sample_chain))
                 (fst (fst (init CONFIG init_ok stored_zero))))))
  = JInt 1000.
Proof.
  split; [reflexivity|].
  destruct (falsy_cursor_is_absent CONFIG
              (node_at 1000 (answering sample_chain))
              (fst (fst (init CONFIG init_ok stored_zero))) eq_refl)
    as (_ & _ & H).
  destruct (H eq_refl) as (_ & h & Hh & Hl).
  vm_compute in Hh. injection Hh as <-. exact Hl.
Defined.

(** * Further properties of the relayer *)

(** ** BlockchainConnector *)

(** [connect] lets no exception but [ConnectionError] out: a provider that is
    not connected and a failing chain id lookup both end in an error entry in
    the log and a [ConnectionError]; otherwise it returns.  The world is left
    as it was. *)
Theorem connect_raises_only_connection_error chain_name rpc_url ok cid w :
  exists tr,
    (connect chain_name rpc_url ok cid w = (w, tr, Ok tt) /\
     ok = true /\ exists i, cid = Ok i) \/
    (connect chain_name rpc_url ok cid w = (w, tr, Raise ConnectionError) /\
     (ok = false \/ exists e, cid = Raise e) /\
     exists e, In (Log ERROR (MsgConnectionFailed chain_name e)) tr).
Proof.
  unfold connect, bind, try_except, pure, log, emit, ret, raise.
  destruct ok, cid as [i|e]; simpl; eexists.
  - left. split; [reflexivity|]. split; [reflexivity|]. exists i. reflexivity.
  - right. split; [reflexivity|]. split; [right; exists e; reflexivity|].
    exists e. simpl. auto.
  - right. split; [reflexivity|]. split; [left; reflexivity|].
    exists ConnectionError. simpl. auto.
  - right. split; [reflexivity|]. split; [left; reflexivity|].
    exists ConnectionError. simpl. auto.
Qed.

(** When the node is not connected and the reconnection fails,
    [get_latest_block_number] raises [ConnectionError] and never asks for
    the head. *)
Theorem head_needs_reconnection cfg n w :
  is_connected n = false ->
  provider_connected n = false \/ (exists e, chain_id n = Raise e) ->
  exists tr,
    get_latest_block_number cfg n w = (w, tr, Raise ConnectionError) /\
    In (Log WARNING MsgNotConnected) tr /\
    ~ In BlockNumber tr.
Proof.
  intros Hc Hfail.
  unfold get_latest_block_number, connect, bind, try_except, pure, call, log,
    emit, ret, raise.
  rewrite Hc. simpl.
  destruct (provider_connected n) eqn:P; simpl.
  - destruct Hfail as [F|[e He]]; [discriminate F|]. rewrite He. simpl.
    eexists. split; [reflexivity|]. split; [simpl; auto|].
    simpl. intros [F|[F|[F|[]]]]; discriminate F.
  - eexists. split; [reflexivity|]. split; [simpl; auto|].
    simpl. intros [F|[F|[F|[]]]]; discriminate F.
Qed.

(** A node that lost its connection and cannot be reached again. *)
Lemma head_needs_reconnection_witness :
  exists tr,
    get_latest_block_number CONFIG unreachable_node (world_at (JInt 500))
    = (world_at (JInt 500), tr, Raise ConnectionError) /\
    ~ In BlockNumber tr.
Proof.
  destruct (head_needs_reconnection CONFIG unreachable_node
              (world_at (JInt 500)) eq_refl (or_introl eq_refl))
    as (tr & A & _ & B).
  exists tr. split; assumption.
Defined.

(** ** EventScanner *)

(** [scan_for_events] never raises and never changes the world: it asks the
    node once, hands back the node's entries, and turns every failure into
    an empty list, logged as a warning for [BlockNotFound] and as an error
    for anything else. *)
Theorem scan_for_events_never_raises n f t name w :
  exists tr,
    scan_for_events n f t name w
    = (w, tr, Ok (scanned (get_all_entries n f t name))) /\
    scans tr = [(f, t)] /\
    (get_all_entries n f t name = Raise BlockNotFound ->
     In (Log WARNING (MsgRangeNotFound f t)) tr) /\
    (forall e, get_all_entries n f t name = Raise e -> e <> BlockNotFound ->
     In (Log ERROR (MsgScanError e)) tr).
Proof.
  unfold scan_for_events, bind, try_except, call, log, emit, ret; simpl.
  destruct (get_all_entries n f t name) as [[|e l]|ex]; simpl.
  - eexists; split; [reflexivity|]. repeat split; intros; discriminate.
  - rewrite map_dict. eexists; split; [reflexivity|].
    repeat split; intros; discriminate.
  - destruct ex; simpl; (eexists; split; [reflexivity|]);
      (split; [reflexivity|]); (split; [intros E; try discriminate E; simpl; auto|]);
      intros e E N; injection E as <-; try congruence; simpl; auto.
Qed.

(** ** TransactionProcessor *)

(** [process_event] never raises, sends nothing and leaves the world as it
    was; it hands back [True] exactly when the amount conversion, the nonce
    and gas price lookups, the build and the signature all succeed. *)
Theorem process_event_true_iff cfg d e w :
  exists tr b,
    process_event cfg d e w = (w, tr, Ok b) /\
    sent tr = [] /\
    (b = true <->
     exists ether nonce gp tx raw,
       from_wei d (amount (args e)) = Ok ether /\
       get_transaction_count d (relayer_address w) = Ok nonce /\
       gas_price d = Ok gp /\
       build_transaction d
         (mintTokens (token (args e)) (recipient (args e))
                     (amount (args e)) (transactionHash e))
         (payload_of w nonce gp) = Ok tx /\
       sign_transaction d tx (private_key cfg) = Ok raw).
Proof.
  unfold payload_of. run_process.
  destruct (from_wei d (amount (args e))) as [ether|ex] eqn:E1; simpl.
  2: { do 2 eexists; split; [reflexivity|]. split; [reflexivity|].
       split; [discriminate|]. intros (? & ? & ? & ? & ? & F & _).
       discriminate F. }
  destruct (get_transaction_count d (relayer_address w)) as [nonce|ex] eqn:E2;
    simpl.
  2: { do 2 eexists; split; [reflexivity|]. split; [reflexivity|].
       split; [discriminate|]. intros (? & ? & ? & ? & ? & _ & F & _).
       discriminate F. }
  destruct (gas_price d) as [gp|ex] eqn:E3; simpl.
  2: { do 2 eexists; split; [reflexivity|]. split; [reflexivity|].
       split; [discriminate|]. intros (? & ? & ? & ? & ? & _ & _ & F & _).
       discriminate F. }
  destruct (build_transaction d _ _) as [tx|ex] eqn:E4; simpl.
  2: { do 2 eexists; split; [reflexivity|]. split; [reflexivity|].
       split; [discriminate|].
       intros (? & n' & g' & ? & ? & _ & N & G & F & _).
       injection N as <-. injection G as <-. rewrite E4 in F.
       discriminate F. }
  destruct (sign_transaction d tx (private_key cfg)) as [raw|ex] eqn:E5; simpl.
  2: { do 2 eexists; split; [reflexivity|]. split; [reflexivity|].
       split; [discriminate|].
       intros (? & n' & g' & tx' & ? & _ & N & G & B & F).
       injection N as <-. injection G as <-. rewrite E4 in B.
       injection B as <-. rewrite E5 in F. discriminate F. }
  do 2 eexists; split; [reflexivity|]. split; [reflexivity|].
  split; [|reflexivity]. intros _.
  exists ether, nonce, gp, tx, raw. auto.
Qed.

(** When the nonce lookup fails, the event is given up before any call is
    built or signed, and [process_event] hands back [False]. *)
Theorem nonce_failure_builds_nothing cfg d e w ex :
  get_transaction_count d (relayer_address w) = Raise ex ->
  exists tr,
    process_event cfg d e w = (w, tr, Ok false) /\
    built tr = [] /\ signed tr = [] /\
    exists ex', In (Log ERROR (MsgProcessFailed ex')) tr.
Proof.
  intros Hn. run_process.
  destruct (from_wei d (amount (args e))) as [ether|ex0]; simpl.
  - rewrite Hn. simpl. eexists. split; [reflexivity|].
    repeat split. exists ex. simpl. auto 10.
  - eexists. split; [reflexivity|]. repeat split. exists ex0. simpl. auto.
Qed.

(** The destination node times out on the nonce lookup. *)
Lemma nonce_failure_builds_nothing_witness :
  exists tr,
    process_event CONFIG dest_down (locked "h1" 550 0) (world_at (JInt 500))
    = (world_at (JInt 500), tr, Ok false) /\
    built tr = [] /\ signed tr = [].
Proof.
  destruct (nonce_failure_builds_nothing CONFIG dest_down (locked "h1" 550 0)
              (world_at (JInt 500)) (RPCError "timeout") eq_refl)
    as (tr & A & B & C & _).
  exists tr. repeat split; assumption.
Defined.

(** ** The state file *)

Lemma dict_get_set_other d k k' v :
  k' <> k -> dict_get (dict_set d k v) k' = dict_get d k'.
Proof.
  intros Hne. induction d as [|[k0 v0] rest IH]; simpl.
  - destruct (String.eqb k k') eqn:E; [|reflexivity].
    apply String.eqb_eq in E. congruence.
  - destruct (String.eqb k0 k) eqn:E; simpl.
    + apply String.eqb_eq in E. subst k0.
      destruct (String.eqb k k') eqn:E'; [|reflexivity].
      apply String.eqb_eq in E'. congruence.
    + destruct (String.eqb k0 k'); [reflexivity | exact IH].
Qed.

(** What [save_state] writes, a later start of the service reads back: the
    cursor of the new service object is the cursor that was saved, whatever
    happens to the connections afterwards. *)
Theorem saved_cursor_is_loaded cfg w ie w2 :
  let w1 := fst (fst (save_state cfg (Ok tt) w)) in
  outcome_of (save_state cfg (Ok tt)) w = Ok tt /\
  last_scanned_block (fst (fst (init cfg ie (with_store (store w1) w2))))
  = last_scanned_block w.
Proof.
  intros w1. unfold outcome_of, w1. rewrite save_state_run. simpl.
  split; [reflexivity|].
  destruct ie as [src sc dpc dcid dc fk].
  unfold init, load_state, connect, bind, try_except, get, ret, raise,
    pure, log, emit, set_state, set_last_scanned_block,
    set_relayer_address, with_store; simpl.
  rewrite dict_get_set.
  destruct (provider_connected src), (chain_id src), sc, dpc, dcid, dc,
    (fk (private_key cfg)); reflexivity.
Qed.

(** [save_state] rewrites the cursor only: every other key that was loaded
    from the state file is written back with its value. *)
Theorem save_state_keeps_other_keys cfg w k :
  k <> "last_scanned_block" ->
  exists d,
    store (fst (fst (save_state cfg (Ok tt) w))) = Holds (JDict d) /\
    dict_get d k = dict_get (state w) k /\
    dict_get d "last_scanned_block" = last_scanned_block w.
Proof.
  intros Hk. rewrite save_state_run. simpl. eexists.
  split; [reflexivity|]. split.
  - apply dict_get_set_other. exact Hk.
  - apply dict_get_set.
Qed.

(** A state with a key of another tool beside the cursor. *)
Lemma save_state_keeps_other_keys_witness :
  exists d,
    store (fst (fst (save_state CONFIG (Ok tt) annotated_world)))
    = Holds (JDict d) /\
    dict_get d "note" = JStr "keep" /\
    dict_get d "last_scanned_block" = JInt 700.
Proof.
  assert (Hk : "note" <> "last_scanned_block") by discriminate.
  exact (save_state_keeps_other_keys CONFIG annotated_world "note" Hk).
Defined.

(** A state file whose content is valid JSON but not an object stops the
    service before any connection is tried: the entry point logs the
    [AttributeError] and ends with status 1. *)
Theorem non_object_state_file_is_fatal cfg ie n envs w j :
  (forall d, j <> JDict d) ->
  main cfg ie n envs (with_store (Holds j) w)
  = (with_store (Holds j) w,
     [Log INFO (MsgLoadingState (state_file cfg));
      Log CRITICAL (MsgCannotStart AttributeError)],
     Ok 1).
Proof.
  intros Hj.
  unfold main, init, load_state, bind, try_except, get, ret, raise, log,
    emit, with_store; simpl.
  destruct j; try reflexivity. exfalso. eapply Hj. reflexivity.
Qed.

(** The state file holds a JSON list. *)
Lemma non_object_state_file_is_fatal_witness :
  outcome_of (main CONFIG init_ok (node_at 1000 (answering sample_chain)) [])
             (with_store (Holds (JList [JInt 700])) (world_at JNull))
  = Ok 1.
Proof.
  assert (Hj : forall d, JList [JInt 700] <> JDict d) by discriminate.
  unfold outcome_of.
  rewrite (non_object_state_file_is_fatal CONFIG init_ok
             (node_at 1000 (answering sample_chain)) [] (world_at JNull)
             (JList [JInt 700]) Hj).
  reflexivity.
Defined.

(** ** Startup and the end of the service *)

(** A cursor that is set (truthy) is kept at startup: the configuration's
    [initial_scan_block] is not consulted and the head is not asked for. *)
Theorem truthy_cursor_is_kept cfg n w :
  truthy (last_scanned_block w) = true ->
  startup cfg n w = (w, [Log INFO MsgStartingUp], Ok tt).
Proof.
  intros Ht. unfold startup, bind, log, emit, get, ret. simpl.
  rewrite Ht. reflexivity.
Qed.

(** The service starts again with cursor 600. *)
Lemma truthy_cursor_is_kept_witness :
  startup CONFIG (node_at 1000 (answering sample_chain)) (world_at (JInt 600))
  = (world_at (JInt 600), [Log INFO MsgStartingUp], Ok tt).
Proof.
  exact (truthy_cursor_is_kept CONFIG (node_at 1000 (answering sample_chain))
           (world_at (JInt 600)) eq_refl).
Defined.

(** Once the service is built and started, an exception that leaves the
    loop is caught by [run]: it is logged as critical, the shutdown is
    logged, nothing more is saved, and the entry point ends with status 0. *)
Theorem loop_error_ends_with_status_zero cfg ie n envs w w0 ti w1 ts w2 tl e :
  init cfg ie w = (w0, ti, Ok tt) ->
  startup cfg n w0 = (w1, ts, Ok tt) ->
  loop cfg envs w1 = (w2, tl, Raise e) ->
  main cfg ie n envs w
  = (w2,
     ti ++ ts ++ tl ++ [Log CRITICAL (MsgCriticalLoop e); Log INFO MsgShutDown],
     Ok 0).
Proof.
  intros Hi Hs Hl.
  unfold main, run, try_except, bind, log, emit, ret.
  rewrite Hi, Hs, Hl. simpl. rewrite app_nil_r. reflexivity.
Qed.

(** The head lookup of the second pass fails. *)
Lemma loop_error_ends_with_status_zero_witness :
  outcome_of (main CONFIG init_ok (node_at 1000 (answering sample_chain))
                [pass 1100 (answering sample_chain) (fun _ => dest_ok);
                 failing_pass])
             (world_at JNull)
  = Ok 0.
Proof.
  unfold outcome_of.
  rewrite (loop_error_ends_with_status_zero CONFIG init_ok
             (node_at 1000 (answering sample_chain))
             [pass 1100 (answering sample_chain) (fun _ => dest_ok);
              failing_pass]
             (world_at JNull) _ _ _ _ _ _ (RPCError "bad gateway")
             eq_refl eq_refl eq_refl).
  reflexivity.
Defined.

Lemma main_init_raises cfg ie n envs w w0 ti e :
  init cfg ie w = (w0, ti, Raise e) ->
  exists m, main cfg ie n envs w = (w0, ti ++ [Log CRITICAL m], Ok 1).
Proof.
  intros Hi. unfold main, try_except, bind. rewrite Hi.
  destruct e; simpl; eexists; reflexivity.
Qed.

Lemma main_startup_raises cfg ie n envs w w0 ti w1 ts e :
  init cfg ie w = (w0, ti, Ok tt) ->
  startup cfg n w0 = (w1, ts, Raise e) ->
  exists m,
    main cfg ie n envs w = (w1, ti ++ ts ++ [Log CRITICAL m], Ok 1).
Proof.
  intros Hi Hs. unfold main, run, try_except, bind. rewrite Hi, Hs.
  destruct e; simpl; rewrite <- app_assoc; eexists; reflexivity.
Qed.

Lemma init_quiet cfg ie w w0 ti r :
  init cfg ie w = (w0, ti, r) -> scans ti = [] /\ handed ti = [].
Proof.
  destruct ie as [src sc dpc dcid dc fk].
  unfold init, load_state, connect, bind, try_except, get, ret, raise,
    pure, log, emit, set_state, set_last_scanned_block,
    set_relayer_address; simpl.
  destruct (store w) as [| | |j]; simpl;
    try (intros E; injection E as <- <- <-; auto; fail);
    try destruct j; simpl;
    try (intros E; injection E as <- <- <-; auto; fail);
    destruct (provider_connected src), (chain_id src), sc, dpc, dcid, dc,
      (fk (private_key cfg)); simpl;
    intros E; injection E as <- <- <-; auto.
Qed.

Lemma startup_quiet cfg n w w1 ts r :
  startup cfg n w = (w1, ts, r) -> scans ts = [] /\ handed ts = [].
Proof.
  unfold startup, bind, log, emit, get, ret. simpl.
  destruct (negb (truthy (last_scanned_block w))); simpl.
  - destruct (initial_scan_block cfg) as [|k]; simpl.
    + destruct (get_latest_block_number_run cfg n w)
        as (t0 & rl & El & (qs & qh & _)).
      rewrite El. destruct rl; simpl; intros E; injection E as <- <- <-.
      * rewrite app_nil_r.
        change (scans (Log INFO MsgStartingUp
                         :: t0 ++ [Log INFO (MsgNoPreviousState (JInt a))]))
          with (scans (t0 ++ [Log INFO (MsgNoPreviousState (JInt a))])).
        change (handed (Log INFO MsgStartingUp
                          :: t0 ++ [Log INFO (MsgNoPreviousState (JInt a))]))
          with (handed (t0 ++ [Log INFO (MsgNoPreviousState (JInt a))])).
        rewrite scans_app, handed_app, qs, qh. auto.
      * change (scans (Log INFO MsgStartingUp :: t0)) with (scans t0).
        change (handed (Log INFO MsgStartingUp :: t0)) with (handed t0).
        auto.
    + intros E; injection E as <- <- <-. auto.
  - intros E; injection E as <- <- <-. auto.
Qed.

(** An exception raised before the loop, while the service is built or
    while the starting block is resolved, ends the entry point with status
    1, and no range is requested and no event processed. *)
Theorem startup_error_ends_with_status_one cfg ie n envs w :
  (exists e, outcome_of (init cfg ie) w = Raise e) \/
  (exists w0 ti e,
     init cfg ie w = (w0, ti, Ok tt) /\
     outcome_of (startup cfg n) w0 = Raise e) ->
  outcome_of (main cfg ie n envs) w = Ok 1 /\
  scans (trace_of (main cfg ie n envs) w) = [] /\
  handed (trace_of (main cfg ie n envs) w) = [].
Proof.
  unfold outcome_of, trace_of.
  intros [[e He] | (w0 & ti & e & Hi & He)].
  - destruct (init cfg ie w) as [[w0 ti] r0] eqn:Hi. simpl in He. subst r0.
    destruct (main_init_raises cfg ie n envs w w0 ti e Hi) as [m ->].
    destruct (init_quiet cfg ie w w0 ti _ Hi) as [qs qh].
    simpl. rewrite scans_app, handed_app, qs, qh. auto.
  - destruct (startup cfg n w0) as [[w1 ts] r1] eqn:Hs. simpl in He. subst r1.
    destruct (main_startup_raises cfg ie n envs w w0 ti w1 ts e Hi Hs)
      as [m ->].
    destruct (startup_quiet cfg n w0 w1 ts _ Hs) as [qs qh].
    destruct (init_quiet cfg ie w w0 ti _ Hi) as [qs0 qh0].
    simpl. rewrite !scans_app, !handed_app, qs, qh, qs0, qh0. auto.
Qed.

(** The source node cannot be reached while the service is built. *)
Lemma startup_error_ends_with_status_one_witness :
  outcome_of (main CONFIG offline_init
                (node_at 1000 (answering sample_chain))
                [pass 1100 (answering sample_chain) (fun _ => dest_ok)])
             (world_at JNull)
  = Ok 1.
Proof.
  apply (startup_error_ends_with_status_one CONFIG offline_init
           (node_at 1000 (answering sample_chain))
           [pass 1100 (answering sample_chain) (fun _ => dest_ok)]
           (world_at JNull)).
  left. exists ConnectionError. reflexivity.
Defined.

(** ** The cursor over consecutive passes *)

Lemma tiles_bounds b rs c :
  tiles b rs c ->
  b <= c /\ forall f t, In (f, t) rs -> b < f /\ f <= t /\ t <= c.
Proof.
  revert b. induction rs as [|[f0 t0] rest IH]; intros b H; simpl in H.
  - subst c. split; [lia|]. intros f t [].
  - destruct H as (-> & Hle & Ht). destruct (IH _ Ht) as (Hc & Hin).
    split; [lia|]. intros f t [E|Hi].
    + injection E as <- <-. lia.
    + destruct (Hin f t Hi). lia.
Qed.

(** Over any number of passes the cursor never moves back, and no block at
    or below the starting cursor is requested again: every requested range
    lies strictly above the starting cursor and at or below the final
    cursor. *)
Theorem cursor_only_moves_forward cfg envs w b w' tr r :
  last_scanned_block w = JInt b ->
  loop cfg envs w = (w', tr, r) ->
  exists c,
    last_scanned_block w' = JInt c /\ b <= c /\
    forall f t, In (f, t) (scans tr) -> b < f /\ f <= t /\ t <= c.
Proof.
  intros Hb Hrun.
  assert (HF : Forall (honest cfg []) envs).
  { apply Forall_forall. intros env _ f t l _ e []. }
  destruct (loop_invariant cfg [] envs w b w' tr r Hb HF Hrun)
    as (c & Hc & Ht & _).
  exists c. split; [exact Hc|]. apply tiles_bounds. exact Ht.
Qed.

(** Three passes from cursor 500 under a head of 650. *)
Lemma cursor_only_moves_forward_witness :
  exists c,
    last_scanned_block
      (fst (fst (loop CONFIG sample_passes (world_at (JInt 500))))) = JInt c
    /\ 500 <= c.
Proof.
  destruct (cursor_only_moves_forward CONFIG sample_passes
              (world_at (JInt 500)) 500 _ _ _ eq_refl eq_refl)
    as (c & A & B & _).
  exists c. split; assumption.
Defined.

Lemma loop_ranges_bounded cfg envs : forall w b w' tr r,
  last_scanned_block w = JInt b ->
  loop cfg envs w = (w', tr, r) ->
  forall f t, In (f, t) (scans tr) ->
    1 <= t - f + 1 <= max_blocks_per_scan cfg.
Proof.
  induction envs as [|env rest IH]; intros w b w' tr r Hb Hrun f t Hin.
  - simpl in Hrun. injection Hrun as <- <- <-. destruct Hin.
  - destruct (cycle_cases cfg env w b Hb) as (w1 & tr1 & r1 & Hc & Hcase).
    assert (H1 : forall f t, In (f, t) (scans tr1) ->
              1 <= t - f + 1 <= max_blocks_per_scan cfg).
    { destruct Hcase as [[_ (qs & _)] | (h & Hle & Hs & _)];
        intros f1 t1 Hi.
      - rewrite qs in Hi. destruct Hi.
      - cbv zeta in Hs, Hle. rewrite Hs in Hi. destruct Hi as [E|[]].
        injection E as <- <-. unfold to_of, from_of in *. lia. }
    destruct r1 as [[]|ex].
    + rewrite (loop_cons_ok _ _ _ _ _ _ Hc) in Hrun.
      destruct (loop cfg rest w1) as [[w2 tr2] r2] eqn:E2. simpl in Hrun.
      injection Hrun as <- <- <-.
      rewrite scans_app in Hin. apply in_app_or in Hin.
      destruct Hin as [Hi|Hi]; [apply H1; exact Hi|].
      destruct Hcase as [[-> _] | (h & _ & _ & _ & Hl1 & _)].
      * eapply IH; eauto.
      * eapply IH; eauto.
    + rewrite (loop_cons_raise _ _ _ _ _ _ _ Hc) in Hrun.
      injection Hrun as <- <- <-. apply H1. exact Hin.
Qed.

(** Every range requested during a run holds at least one block and at most
    [max_blocks_per_scan] blocks. *)
Theorem every_range_within_chunk_size cfg envs w b w' tr r f t :
  last_scanned_block w = JInt b ->
  loop cfg envs w = (w', tr, r) ->
  In (f, t) (scans tr) ->
  1 <= t - f + 1 <= max_blocks_per_scan cfg.
Proof. intros Hb Hrun. apply (loop_ranges_bounded cfg envs w b w' tr r Hb Hrun). Qed.

(** The second range of the sample run. *)
Lemma every_range_within_chunk_size_witness :
  1 <= 650 - 601 + 1 <= max_blocks_per_scan CONFIG.
Proof.
  apply (every_range_within_chunk_size CONFIG sample_passes
           (world_at (JInt 500)) 500 _ _ _ 601 650 eq_refl eq_refl).
  vm_compute. auto.
Defined.

(** With [max_blocks_per_scan] at zero or below the service never requests
    a range and the cursor, the state and the state file stay as they
    were. *)
Theorem no_chunk_no_progress cfg envs w b w' tr r :
  max_blocks_per_scan cfg <= 0 ->
  last_scanned_block w = JInt b ->
  loop cfg envs w = (w', tr, r) ->
  scans tr = [] /\ handed tr = [] /\ w' = w.
Proof.
  intros Hmax Hb Hrun.
  assert (Hs : scans tr = []).
  { destruct (scans tr) as [|[f t] rest] eqn:E; [reflexivity|].
    assert (Hin : In (f, t) (scans tr)) by (rewrite E; left; reflexivity).
    pose proof (loop_ranges_bounded cfg envs w b w' tr r Hb Hrun
                  f t Hin). lia. }
  assert (HF : Forall (honest cfg []) envs).
  { apply Forall_forall. intros env _ f t l _ e []. }
  destruct (loop_invariant cfg [] envs w b w' tr r Hb HF Hrun)
    as (c & _ & _ & Hw & _).
  split; [exact Hs|]. split; [|exact (Hw Hs)].
  clear - Hb Hrun Hs. revert w b w' tr r Hb Hrun Hs.
  induction envs as [|env rest IH]; intros w b w' tr r Hb Hrun Hs.
  - simpl in Hrun. injection Hrun as <- <- <-. reflexivity.
  - destruct (cycle_cases cfg env w b Hb) as (w1 & tr1 & r1 & Hc & Hcase).
    destruct r1 as [[]|ex].
    + rewrite (loop_cons_ok _ _ _ _ _ _ Hc) in Hrun.
      destruct (loop cfg rest w1) as [[w2 tr2] r2] eqn:E2. simpl in Hrun.
      injection Hrun as <- <- <-.
      rewrite scans_app in Hs. apply app_eq_nil in Hs. destruct Hs as [S1 S2].
      destruct Hcase as [[-> (_ & qh & _)] | (h & _ & Hs1 & _)].
      * rewrite handed_app, qh. simpl. eapply IH; eauto.
      * cbv zeta in Hs1. rewrite Hs1 in S1. discriminate S1.
    + rewrite (loop_cons_raise _ _ _ _ _ _ _ Hc) in Hrun.
      injection Hrun as <- <- <-.
      destruct Hcase as [[_ (_ & qh & _)] | (h & _ & Hs1 & _)]; [exact qh|].
      cbv zeta in Hs1. rewrite Hs1 in Hs. discriminate Hs.
Qed.

(** A run with a chunk size of zero. *)
Lemma no_chunk_no_progress_witness :
  scans (trace_of (loop no_chunk_config
                     [pass 650 (answering sample_chain) (fun _ => dest_ok);
                      pass 700 (answering sample_chain) (fun _ => dest_ok)])
                  (world_at (JInt 500))) = [] /\
  fst (fst (loop no_chunk_config
              [pass 650 (answering sample_chain) (fun _ => dest_ok);
               pass 700 (answering sample_chain) (fun _ => dest_ok)]
              (world_at (JInt 500)))) = world_at (JInt 500).
Proof.
  assert (Hmax : max_blocks_per_scan no_chunk_config <= 0)
    by (vm_compute; discriminate).
  destruct (no_chunk_no_progress no_chunk_config
              [pass 650 (answering sample_chain) (fun _ => dest_ok);
               pass 700 (answering sample_chain) (fun _ => dest_ok)]
              (world_at (JInt 500)) 500 _ _ _ Hmax eq_refl eq_refl)
    as (A & _ & B).
  split; [exact A | exact B].
Defined.



(** * Properties of WordSource *)

Section WordSourceDrawing.

Variable char : Type.

Lemma filtered_words_spec (ws : list (list char)) min_length max_length w :
  In w (match max_length with
        | Some m =>
            filter (fun w => WordSource.len w <=? m)
              (if min_length >? 0
               then filter (fun w => WordSource.len w >=? min_length) ws else ws)
        | None =>
            if min_length >? 0
            then filter (fun w => WordSource.len w >=? min_length) ws else ws
        end)
  <-> In w ws /\ WordSource.fits min_length max_length w.
Proof.
  unfold WordSource.fits.
  assert (Hlen : 0 <= WordSource.len w) by (unfold WordSource.len; lia).
  assert (Hmin : In w (if min_length >? 0
                       then filter (fun w => WordSource.len w >=? min_length) ws
                       else ws)
                 <-> In w ws /\ min_length <= WordSource.len w).
  { destruct (min_length >? 0) eqn:G.
    - rewrite filter_In. rewrite Z.geb_le. tauto.
    - rewrite Z.gtb_ltb in G. apply Z.ltb_ge in G. intuition lia. }
  destruct max_length as [m|].
  - rewrite filter_In, Hmin, Z.leb_le. split.
    + intros [[Hin Hm] Hle]. repeat split; auto.
      intros m' E. injection E as <-. exact Hle.
    + intros [Hin [Hm Hle]]. auto.
  - rewrite Hmin. split.
    + intros [Hin Hm]. repeat split; auto. intros m' E. discriminate E.
    + intros [Hin [Hm _]]. auto.
Qed.

Lemma get_random_word_cases (self : WordSource.WordSource char)
    min_length max_length r :
  (exists w,
     WordSource.get_random_word self min_length max_length r
     = WordSource.Return w /\
     In w (WordSource.words self) /\
     WordSource.fits min_length max_length w) \/
  (WordSource.get_random_word self min_length max_length r
   = WordSource.Raised WordSource.ValueError /\
   forall w, In w (WordSource.words self) ->
     ~ WordSource.fits min_length max_length w).
Proof.
  pose proof (filtered_words_spec (WordSource.words self)
                min_length max_length) as Hspec.
  unfold WordSource.get_random_word.
  destruct (match max_length with Some m => _ | None => _ end)
    as [|w0 rest] eqn:E.
  - right. split; [reflexivity|]. intros w Hin Hfit.
    destruct (proj2 (Hspec w) (conj Hin Hfit)).
  - left. eexists. split; [reflexivity|]. apply Hspec.
    apply nth_In. apply Nat.mod_upper_bound. discriminate.
Qed.

(** A word handed back by [get_random_word] is one of the loaded words and
    its length lies between [min_length] and [max_length]. *)
Theorem get_random_word_within_bounds (self : WordSource.WordSource char)
    min_length max_length r w :
  WordSource.get_random_word self min_length max_length r
  = WordSource.Return w ->
  In w (WordSource.words self) /\ WordSource.fits min_length max_length w.
Proof.
  intros H.
  destruct (get_random_word_cases self min_length max_length r)
    as [(w' & E & Hin & Hfit) | [E _]]; rewrite E in H.
  - injection H as <-. auto.
  - discriminate H.
Qed.

(** [get_random_word] raises exactly when no loaded word has a length in the
    window asked for, and [ValueError] is all it raises. *)
Theorem get_random_word_raises_iff (self : WordSource.WordSource char)
    min_length max_length r :
  ((exists e,
      WordSource.get_random_word self min_length max_length r
      = WordSource.Raised e)
   <-> forall w, In w (WordSource.words self) ->
         ~ WordSource.fits min_length max_length w) /\
  (forall e,
     WordSource.get_random_word self min_length max_length r
     = WordSource.Raised e ->
     e = WordSource.ValueError).
Proof.
  destruct (get_random_word_cases self min_length max_length r)
    as [(w' & E & Hin & Hfit) | [E Hnone]]; rewrite E.
  - split; [|intros e H; discriminate H]. split.
    + intros [e H]. discriminate H.
    + intros H. destruct (H w' Hin Hfit).
  - split; [|intros e H; injection H as <-; reflexivity]. split; [auto|].
    intros _. eexists. reflexivity.
Qed.

(** A window whose upper bound is below its lower bound always raises
    [ValueError]. *)
Theorem empty_window_raises (self : WordSource.WordSource char)
    min_length m r :
  m < min_length ->
  WordSource.get_random_word self min_length (Some m) r
  = WordSource.Raised WordSource.ValueError.
Proof.
  intros Hlt.
  destruct (get_random_word_cases self min_length (Some m) r)
    as [(w' & _ & _ & Hmin & Hmax) | [E _]]; [|exact E].
  specialize (Hmax m eq_refl). lia.
Qed.

End WordSourceDrawing.

Section WordSourceLoading.

Variable char : Type.
Variable isspace : char -> bool.
Variable isalpha_char : char -> bool.
Variable lower : list char -> list char.

(** [_load_words] keeps, in lower case, exactly the lines that consist of
    letters once stripped; it hands back a list that is not empty, and
    raises [ValueError] when no line qualifies. *)
Theorem load_words_cases (lines : list (list char)) :
  match WordSource.load_words isspace isalpha_char lower lines with
  | WordSource.Return ws =>
      ws <> [] /\
      forall w, In w ws <->
        exists line,
          In line lines /\ WordSource.isalpha isalpha_char (WordSource.strip isspace line) = true /\
          w = lower (WordSource.strip isspace line)
  | WordSource.Raised e =>
      e = WordSource.ValueError /\
      forall line, In line lines -> WordSource.isalpha isalpha_char (WordSource.strip isspace line) = false
  end.
Proof.
  unfold WordSource.load_words.
  destruct (map _ (filter _ lines)) as [|w0 ws] eqn:E.
  - split; [reflexivity|]. intros line Hin.
    destruct (WordSource.isalpha isalpha_char (WordSource.strip isspace line)) eqn:A; [|reflexivity].
    apply map_eq_nil in E.
    assert (Hf : In line (filter (fun l => WordSource.isalpha isalpha_char (WordSource.strip isspace l)) lines))
      by (apply filter_In; auto).
    rewrite E in Hf. destruct Hf.
  - split; [discriminate|]. intros w. rewrite <- E. rewrite in_map_iff.
    split.
    + intros (line & <- & Hf). apply filter_In in Hf.
      exists line. intuition.
    + intros (line & Hin & A & ->). exists line. split; [reflexivity|].
      apply filter_In. auto.
Qed.

(** A word source that could be built holds at least one word, so asking it
    for a word without a length window never raises. *)
Theorem built_source_always_has_a_word path file
    (self : WordSource.WordSource char) r :
  WordSource.init isspace isalpha_char lower path file
  = WordSource.Return self ->
  (exists lines, file = WordSource.Lines lines) /\
  (1 <= WordSource.length self)%nat /\
  exists w,
    WordSource.get_random_word self 0 None r = WordSource.Return w /\
    In w (WordSource.words self).
Proof.
  unfold WordSource.init. intros H.
  destruct file as [| |lines]; try discriminate H.
  split; [exists lines; reflexivity|].
  unfold WordSource.load_words in H.
  destruct (map _ (filter _ lines)) as [|w0 ws] eqn:E; [discriminate H|].
  injection H as <-. split; [unfold WordSource.length; simpl; lia|].
  destruct (get_random_word_cases char
              (WordSource.mkWordSource path (w0 :: ws)) 0 None r)
    as [(w & Ew & Hin & _) | [_ Hnone]].
  - exists w. auto.
  - exfalso. apply (Hnone w0 (or_introl eq_refl)).
    split; [unfold WordSource.len; lia|]. intros m F. discriminate F.
Qed.

End WordSourceLoading.

(** A file with five lines, three of them words. *)
Lemma load_words_sample :
  WordSource.load_words WordSource.ascii_isspace WordSource.ascii_isalpha
    WordSource.ascii_lower WordSource.sample_lines
  = WordSource.Return (WordSource.words WordSource.sample_source).
Proof. reflexivity. Qed.

(** Words of four or five letters, draw 7. *)
Lemma get_random_word_within_bounds_witness :
  In (list_ascii_of_string "pear")
     (WordSource.words WordSource.sample_source) /\
  WordSource.fits 4 (Some 5) (list_ascii_of_string "pear").
Proof.
  exact (get_random_word_within_bounds Ascii.ascii WordSource.sample_source
           4 (Some 5) 7%nat (list_ascii_of_string "pear") eq_refl).
Defined.

(** At least six letters and at most five. *)
Lemma empty_window_raises_witness :
  WordSource.get_random_word WordSource.sample_source 6 (Some 5) 0%nat
  = WordSource.Raised WordSource.ValueError.
Proof.
  assert (Hlt : 5 < 6) by reflexivity.
  exact (empty_window_raises Ascii.ascii WordSource.sample_source 6 5 0%nat
           Hlt).
Defined.

(** The source built from the sample file, draw 4. *)
Lemma built_source_always_has_a_word_witness :
  exists w,
    WordSource.get_random_word WordSource.sample_source 0 None 4%nat
    = WordSource.Return w /\
    In w (WordSource.words WordSource.sample_source).
Proof.
  exact (proj2 (proj2
    (built_source_always_has_a_word Ascii.ascii WordSource.ascii_isspace
       WordSource.ascii_isalpha WordSource.ascii_lower
       "words.txt" (WordSource.Lines WordSource.sample_lines)
       WordSource.sample_source 4%nat eq_refl))).
Defined.
